(** * waifuc: the tagging actions and the source composition algebra

    A shallow embedding of [waifuc/action/tagging.py] and of the source
    combinators exercised by [test/source/test_compose.py].

    Python dictionaries keep their insertion order, so a dictionary is an
    association list with pairwise distinct keys.  Dictionaries are mutable
    objects held by reference: they live in a store, an item holds the
    address of its metadata dictionary, and a metadata dictionary holds the
    address of its tags dictionary.  Every statement of the source that
    builds or updates a dictionary is a store operation here. *)

From Stdlib Require Import Ascii String PrimFloat.
From stdpp Require Import base list strings.

Local Open Scope string_scope.
Local Open Scope list_scope.

(** ** Scores

    A score is a Python [float], a binary64 number: the module stores the
    literals [0], [2.9], [2.8], [2.7] and [1e-6], compares scores with [<]
    and [>] and tests them for truth.  The literals below are read as Python
    reads them, to the nearest binary64 number; [nan] and the infinities are
    scores too.  The integer [0] that the module stores is the score [0.0],
    which it equals in every comparison. *)

Set Warnings "-inexact-float".

Definition score : Type := float.

(** [x < y] *)
Definition score_lt (x y : score) : bool := PrimFloat.ltb x y.

(** [bool(x)] for a number: false exactly for zero. *)
Definition score_truthy (x : score) : bool := negb (PrimFloat.eqb x 0%float).

Definition score_zero : score := 0%float.
Definition score_character : score := 2.9%float.
Definition score_copyright : score := 2.8%float.
Definition score_artist : score := 2.7%float.
Definition score_present : score := 1e-6%float.

(** ** Strings

    [str.split()] without arguments: maximal runs of non-whitespace
    characters.  A character of [string] stands for the code point of the
    same number; the whitespace code points below 256 are 9-13, 28-32, 133
    and 160. *)

Definition is_space (c : ascii) : bool :=
  let n := nat_of_ascii c in
  (((9 <=? n) && (n <=? 13)) || ((28 <=? n) && (n <=? 32))
   || (n =? 133) || (n =? 160))%nat.

Fixpoint split_from (cur : string) (s : string) : list string :=
  match s with
  | EmptyString => match cur with EmptyString => [] | _ => [cur] end
  | String c r =>
      if is_space c
      then match cur with
           | EmptyString => split_from EmptyString r
           | _ => cur :: split_from EmptyString r
           end
      else split_from (cur +:+ String c EmptyString) r
  end.

Definition split (s : string) : list string := split_from EmptyString s.

(** ** Dictionaries *)

Module Dict.
Section dict.
Context {V : Type}.

(** [d.get(k)] *)
Fixpoint get (k : string) (d : list (string * V)) : option V :=
  match d with
  | [] => None
  | (k', v) :: r => if String.eqb k k' then Some v else get k r
  end.

(** [k in d] *)
Definition mem (k : string) (d : list (string * V)) : bool :=
  match get k d with Some _ => true | None => false end.

(** [d[k] = v]: a present key keeps its position, a new key goes last. *)
Fixpoint set (k : string) (v : V) (d : list (string * V)) : list (string * V) :=
  match d with
  | [] => [(k, v)]
  | (k', v') :: r =>
      if String.eqb k k' then (k, v) :: r else (k', v') :: set k v r
  end.

(** [del d[k]] on a dictionary that has the key. *)
Fixpoint del (k : string) (d : list (string * V)) : list (string * V) :=
  match d with
  | [] => []
  | (k', v') :: r =>
      if String.eqb k k' then del k r else (k', v') :: del k r
  end.

End dict.
End Dict.

(** ** The store

    Two kinds of dictionary are created and updated by the module: tags
    dictionaries (tag name to score) and metadata dictionaries.  Each kind
    has its cells; an address is an index into the cells, and a new object
    takes the next free index. *)

Abbreviation loc := nat (only parsing).

(** The values a metadata dictionary holds: [None], a string (the file name
    and the like), a reference to a tags dictionary, or a source record such
    as the [danbooru] block, whose fields are strings or [None].  The record
    is only read by this module. *)
Inductive value : Type :=
| VNone
| VStr (s : string)
| VTags (l : loc)
| VRecord (r : list (string * option string)).

Record heap : Type := Heap {
  tag_cells : list (list (string * score));
  meta_cells : list (list (string * value))
}.

Inductive exn : Type :=
  KeyError | TypeError | AttributeError | IllTyped | Dangling.

Inductive res (A : Type) : Type :=
| Ok (a : A)
| Raise (e : exn).
Arguments Ok {A} a.
Arguments Raise {A} e.

Definition M (A : Type) : Type := heap → res (A * heap).

Definition ret {A} (a : A) : M A := λ h, Ok (a, h).

Definition bind {A B} (m : M A) (f : A → M B) : M B :=
  λ h, match m h with
       | Ok (a, h') => f a h'
       | Raise e => Raise e
       end.

Definition raise {A} (e : exn) : M A := λ _, Raise e.

Notation "x <- c1 ;; c2" := (bind c1 (λ x, c2))
  (at level 100, c1 at next level, right associativity).

(** A fresh tags dictionary with the given content ([dict(...)], a
    dictionary display or comprehension, the result of a backend). *)
Definition new_tags (d : list (string * score)) : M loc :=
  λ h, Ok (length (tag_cells h), Heap (tag_cells h ++ [d]) (meta_cells h)).

Definition read_tags (l : loc) : M (list (string * score)) :=
  λ h, match tag_cells h !! l with
       | Some d => Ok (d, h)
       | None => Raise Dangling
       end.

Definition write_tags (l : loc) (d : list (string * score)) (h : heap) : heap :=
  Heap (<[l := d]> (tag_cells h)) (meta_cells h).

(** [tags[k] = v] *)
Definition tags_setitem (l : loc) (k : string) (v : score) : M unit :=
  λ h, match tag_cells h !! l with
       | Some d => Ok (tt, write_tags l (Dict.set k v d) h)
       | None => Raise Dangling
       end.

(** [tags[k]] *)
Definition tags_getitem (l : loc) (k : string) : M score :=
  λ h, match tag_cells h !! l with
       | Some d => match Dict.get k d with
                   | Some v => Ok (v, h)
                   | None => Raise KeyError
                   end
       | None => Raise Dangling
       end.

(** [tags.get(k)] *)
Definition tags_get (l : loc) (k : string) : M (option score) :=
  λ h, match tag_cells h !! l with
       | Some d => Ok (Dict.get k d, h)
       | None => Raise Dangling
       end.

(** [del tags[k]] *)
Definition tags_delitem (l : loc) (k : string) : M unit :=
  λ h, match tag_cells h !! l with
       | Some d => match Dict.get k d with
                   | Some _ => Ok (tt, write_tags l (Dict.del k d) h)
                   | None => Raise KeyError
                   end
       | None => Raise Dangling
       end.

Definition new_meta (m : list (string * value)) : M loc :=
  λ h, Ok (length (meta_cells h), Heap (tag_cells h) (meta_cells h ++ [m])).

Definition read_meta (l : loc) : M (list (string * value)) :=
  λ h, match meta_cells h !! l with
       | Some m => Ok (m, h)
       | None => Raise Dangling
       end.

(** [for x in xs: body] *)
Fixpoint for_each {A} (xs : list A) (body : A → M unit) : M unit :=
  match xs with
  | [] => ret tt
  | x :: r => _ <- body x ;; for_each r body
  end.

(** ** The tagging backends

    [TaggingMethodTyping]: the names of the registry [_TAGGING_METHODS]. *)
Inductive TaggingMethodTyping : Type :=
| deepdanbooru | wd14_vit | wd14_convnext | wd14_convnextv2 | wd14_swinv2
| wd14_moat | wd14_v3_swinv2 | wd14_v3_convnext | wd14_v3_vit
| wd14_v3_eva02_large | wd14_v3_vit_large | mldanbooru.

Definition DEFAULT_TAGGING_METHOD : TaggingMethodTyping := wd14_v3_eva02_large.

(** ** The actions of [waifuc/action/tagging.py] *)

Section actions.

(** An image is an opaque handle; [Kwargs] are the keyword arguments handed
    on to a backend. *)
Context {Image Kwargs : Type}.

(** The functions imported from [imgutils]: the backends of the registry
    (each returns a new dictionary), [drop_overlap_tags], [is_blacklisted],
    [remove_underline] and [anime_rating]. *)
Variable tagging_backend :
  TaggingMethodTyping → Image → Kwargs → list (string * score).
Variable drop_overlap_tags : list (string * score) → list (string * score).
Variable is_blacklisted : string → bool.
Variable remove_underline : string → string.
Variable anime_rating : Image → string * score.

(** Modelled from the spec: [ImageItem] of [waifuc/model], which is not among
    the sources; section 3 gives it as the pair of an image and a metadata
    mapping.  The metadata is held by reference. *)
Record ImageItem : Type := mkImageItem { image : Image; meta : loc }.

(** [item.meta.get('tags') or {}]: the content the copy is made from.  A
    value that is neither [None] nor a tags dictionary is outside the data
    model. *)
Definition tags_or_empty (m : list (string * value)) : M (list (string * score)) :=
  match Dict.get "tags" m with
  | None | Some VNone => ret []
  | Some (VTags l) => read_tags l
  | Some _ => raise IllTyped
  end.

(** [item.meta.get('danbooru') or {}] *)
Definition danbooru_or_empty (m : list (string * value))
  : M (list (string * option string)) :=
  match Dict.get "danbooru" m with
  | None | Some VNone => ret []
  | Some (VRecord r) => ret r
  | Some _ => raise IllTyped
  end.

(** [danbooru.get(k, None) or ''] *)
Definition tag_string (danbooru : list (string * option string)) (k : string)
  : string :=
  match Dict.get k danbooru with
  | Some (Some s) => s
  | _ => ""
  end.

(** [ImageItem(item.image, {**item.meta, 'tags': tags})] *)
Definition with_tags (item : ImageItem) (tags : loc) : M ImageItem :=
  m <- read_meta (meta item) ;;
  lm <- new_meta (Dict.set "tags" (VTags tags) m) ;;
  ret (mkImageItem (image item) lm).

(** *** TaggingAction *)

Record TaggingAction : Type := mkTaggingAction {
  ta_method : TaggingMethodTyping;
  ta_force : bool;
  ta_kwargs : Kwargs
}.

Definition TaggingAction_process (self : TaggingAction) (item : ImageItem)
  : M ImageItem :=
  m <- read_meta (meta item) ;;
  if Dict.mem "tags" m && negb (ta_force self)
  then ret item
  else
    tags <- new_tags (tagging_backend (ta_method self) (image item) (ta_kwargs self)) ;;
    with_tags item tags.

(** *** TagFilterAction *)

(** The objects the constructor may be handed as [tags]; [PyMapping] is a
    [Mapping] that is not a [dict], such as a [MappingProxyType]. *)
Inductive pyobj : Type :=
| PyList (xs : list string)
| PyTuple (xs : list string)
| PyDict (d : list (string * score))
| PyMapping (d : list (string * score))
| PyStr (s : string)
| PyFloat (x : score)
| PySet (xs : list string)
| PyNone.

Record TagFilterAction : Type := mkTagFilterAction {
  tf_tags : list (string * score);
  tf_tagger : TaggingAction;
  tf_reversed : bool
}.

(** [{tag: 1e-6 for tag in tags}] *)
Definition required_of_names (names : list string) : list (string * score) :=
  fold_left (λ d tag, Dict.set tag score_present d) names [].

(** [TagFilterAction.__init__] on a method of [TaggingMethodTyping], which
    the registry has, and keyword arguments that [TaggingAction] takes (no
    [force] among them): what is left is the test on [tags].  The
    constructor with its other errors is [TagFilterAction_init_by_name]. *)
Definition TagFilterAction_init (tags : pyobj) (method : TaggingMethodTyping)
    (reversed : bool) (kwargs : Kwargs) : res TagFilterAction :=
  match tags with
  | PyList xs | PyTuple xs =>
      Ok (mkTagFilterAction (required_of_names xs)
            (mkTaggingAction method false kwargs) reversed)
  | PyDict d =>
      Ok (mkTagFilterAction d (mkTaggingAction method false kwargs) reversed)
  | _ => Raise TypeError
  end.

(** The verdict of the loop over [self.tags.items()] on the content of the
    tags dictionary; [false] is the [break] with [valid = False]. *)
Fixpoint all_valid (reversed : bool) (required : list (string * score))
    (tags : list (string * score)) : bool :=
  match required with
  | [] => true
  | (tag, min_score) :: rest =>
      let tag_score := default score_zero (Dict.get tag tags) in
      if (negb reversed && score_lt tag_score min_score)
         || (reversed && score_lt min_score tag_score)
      then false
      else all_valid reversed rest tags
  end.

(** [item.meta['tags']]: the value under the key, whatever it is. *)
Definition item_tags (item : ImageItem) : M value :=
  m <- read_meta (meta item) ;;
  match Dict.get "tags" m with
  | None => raise KeyError
  | Some v => ret v
  end.

(** [tags.get(tag, 0.0)] on the value read from the metadata: [None] and a
    string have no [get]; on a record the result would not be a score. *)
Definition tags_get_default (tags : value) (tag : string) : M score :=
  match tags with
  | VTags l => v <- tags_get l tag ;; ret (default score_zero v)
  | VNone | VStr _ => raise AttributeError
  | VRecord _ => raise IllTyped
  end.

(** The loop over [self.tags.items()] as it runs: [false] is the [break]
    with [valid = False]. *)
Fixpoint filter_loop (reversed : bool) (required : list (string * score))
    (tags : value) : M bool :=
  match required with
  | [] => ret true
  | (tag, min_score) :: rest =>
      tag_score <- tags_get_default tags tag ;;
      if (negb reversed && score_lt tag_score min_score)
         || (reversed && score_lt min_score tag_score)
      then ret false
      else filter_loop reversed rest tags
  end.

(** Modelled from the spec: [ProcessAction.__call__] of [waifuc/action/base],
    which is not among the sources.  Section 4.2 has the filter wrap a
    [TaggingAction] and, for each item, ensure that the tags are computed:
    calling the tagger on an item is its [process]. *)
Definition TaggingAction_call (self : TaggingAction) (item : ImageItem)
  : M ImageItem :=
  TaggingAction_process self item.

(** The generator [iter] yields no item or one. *)
Definition TagFilterAction_iter (self : TagFilterAction) (item : ImageItem)
  : M (list ImageItem) :=
  item <- TaggingAction_call (tf_tagger self) item ;;
  tags <- item_tags item ;;
  valid <- filter_loop (tf_reversed self) (tf_tags self) tags ;;
  if valid then ret [item] else ret [].

(** *** TagOverlapDropAction *)

Definition TagOverlapDropAction_process (item : ImageItem) : M ImageItem :=
  m <- read_meta (meta item) ;;
  copy <- (d <- tags_or_empty m ;; new_tags d) ;;
  d <- read_tags copy ;;
  tags <- new_tags (drop_overlap_tags d) ;;
  with_tags item tags.

(** *** DanbooruTagProcessAction *)

Record DanbooruTagProcessAction : Type := mkDanbooruTagProcessAction {
  meta_whitelist : list string
}.

Definition in_set (x : string) (s : list string) : bool :=
  existsb (String.eqb x) s.

Definition option_truthy (v : option score) : bool :=
  match v with
  | Some x => score_truthy x
  | None => false
  end.

Definition DanbooruTagProcessAction_process (self : DanbooruTagProcessAction)
    (item : ImageItem) : M ImageItem :=
  m <- read_meta (meta item) ;;
  tags <- (d <- tags_or_empty m ;; new_tags d) ;;
  danbooru <- danbooru_or_empty m ;;
  _ <- match danbooru with
       | [] => ret tt
       | _ =>
         let meta := tag_string danbooru "tag_string_meta" in
         let characters := tag_string danbooru "tag_string_character" in
         let copyrights := tag_string danbooru "tag_string_copyright" in
         let artists := tag_string danbooru "tag_string_artist" in
         _ <- for_each (split meta) (λ meta_tag,
                if in_set meta_tag (meta_whitelist self)
                then tags_setitem tags meta_tag score_zero
                else
                  v <- tags_get tags meta_tag ;;
                  if option_truthy v then tags_delitem tags meta_tag
                  else ret tt) ;;
         _ <- for_each (split characters) (λ character,
                tags_setitem tags character score_character) ;;
         _ <- for_each (split copyrights) (λ copyright,
                tags_setitem tags copyright score_copyright) ;;
         for_each (split artists) (λ artist,
           _ <- tags_setitem tags artist score_artist ;;
           let by_artist := "artist:" +:+ artist in
           v <- tags_getitem tags artist ;;
           _ <- tags_setitem tags by_artist v ;;
           tags_delitem tags artist)
       end ;;
  with_tags item tags.

(** *** TagNSFWOrExplicitAction *)

Definition TagNSFWOrExplicitAction_process (item : ImageItem) : M ImageItem :=
  let '(rating, score) := anime_rating (image item) in
  m <- read_meta (meta item) ;;
  tags <- (d <- tags_or_empty m ;; new_tags d) ;;
  _ <- (if String.eqb rating "r15" then tags_setitem tags "nsfw" score
        else ret tt) ;;
  _ <- (if String.eqb rating "r18" then tags_setitem tags "explicit" score
        else ret tt) ;;
  with_tags item tags.

(** *** TagDropAction, BlacklistedTagDropAction, TagRemoveUnderlineAction *)

Record TagDropAction : Type := mkTagDropAction {
  tags_to_drop : list string
}.

(** [{tag: score for tag, score in tags.items() if keep(tag)}] *)
Definition comprehension (key : string → string) (keep : string → bool)
    (d : list (string * score)) : list (string * score) :=
  fold_left (λ acc '(tag, score),
               if keep tag then Dict.set (key tag) score acc else acc) d [].

Definition rebuild_tags (key : string → string) (keep : string → bool)
    (item : ImageItem) : M ImageItem :=
  m <- read_meta (meta item) ;;
  copy <- (d <- tags_or_empty m ;; new_tags d) ;;
  d <- read_tags copy ;;
  tags <- new_tags (comprehension key keep d) ;;
  with_tags item tags.

Definition TagDropAction_process (self : TagDropAction) (item : ImageItem)
  : M ImageItem :=
  rebuild_tags id (λ tag, negb (in_set tag (tags_to_drop self))) item.

Definition BlacklistedTagDropAction_process (item : ImageItem) : M ImageItem :=
  rebuild_tags id (λ tag, negb (is_blacklisted tag)) item.

Definition TagRemoveUnderlineAction_process (item : ImageItem) : M ImageItem :=
  rebuild_tags remove_underline (λ _, true) item.

(** *** The tag-mutating process actions together *)

Inductive TagProcessAction : Type :=
| OverlapDrop
| DanbooruProcess (self : DanbooruTagProcessAction)
| NSFWOrExplicit
| Drop (self : TagDropAction)
| BlacklistedDrop
| RemoveUnderline.

Definition process (action : TagProcessAction) (item : ImageItem) : M ImageItem :=
  match action with
  | OverlapDrop => TagOverlapDropAction_process item
  | DanbooruProcess self => DanbooruTagProcessAction_process self item
  | NSFWOrExplicit => TagNSFWOrExplicitAction_process item
  | Drop self => TagDropAction_process self item
  | BlacklistedDrop => BlacklistedTagDropAction_process item
  | RemoveUnderline => TagRemoveUnderlineAction_process item
  end.

End actions.

(** ** The source composition algebra *)

Section sources.
Context {Item : Type}.

(** Modelled from the spec: the sources of [waifuc/source], of which only the
    test [test/source/test_compose.py] is among the sources.  Section 4.1: a
    source produces a sequence of items; [A + B] is the chain, [A | B] the
    merge, and composed sources are sources. *)
Inductive Source : Type :=
| Leaf (items : list Item)
| Chain (a b : Source)
| Merge (a b : Source).

(** A merged sequence records, with each item, the operand it came from:
    [true] for the left one. *)
Definition items_of (o : bool) (tl : list (bool * Item)) : list Item :=
  map snd (List.filter (λ p, Bool.eqb o (fst p)) tl).

(** Modelled from the spec: section 4.1, "neither source's items are fully
    exhausted before the other begins contributing".  Operand [o] is
    exhausted before the other begins when both contribute and the first
    items of the merged sequence, as many as [o] has, all come from [o]. *)
Definition exhausted_before_other_begins (o : bool) (origins : list bool)
  : bool :=
  let n := length (List.filter (Bool.eqb o) origins) in
  ((0 <? n)%nat && (n <? length origins)%nat
   && forallb (Bool.eqb o) (firstn n origins)).

Definition fair (origins : list bool) : bool :=
  negb (exhausted_before_other_begins true origins)
  && negb (exhausted_before_other_begins false origins).

(** Modelled from the spec: what [list(s)] may be.  The chain gives all of
    [A]'s items in [A]'s order, then all of [B]'s in [B]'s order; the merge
    gives an interleaving of the two that is fair, its granularity left
    open. *)
Inductive produces : Source → list Item → Prop :=
| produces_leaf items : produces (Leaf items) items
| produces_chain a b la lb :
    produces a la → produces b lb → produces (Chain a b) (la ++ lb)
| produces_merge a b tl :
    produces a (items_of true tl) → produces b (items_of false tl) →
    fair (map fst tl) = true →
    produces (Merge a b) (map snd tl).

(** Strict round-robin, one admissible granularity of the merge. *)
Fixpoint round_robin (la lb : list Item) : list (bool * Item) :=
  match la, lb with
  | [], _ => map (pair false) lb
  | _, [] => map (pair true) la
  | x :: la', y :: lb' => (true, x) :: (false, y) :: round_robin la' lb'
  end.

End sources.

Arguments ImageItem : clear implicits.
Arguments TaggingAction : clear implicits.
Arguments TagFilterAction : clear implicits.
Arguments Source : clear implicits.

(** ** Reading an item through the store *)

Section observations.
Context {Image : Type}.

(** The metadata dictionary an item refers to. *)
Definition meta_of (h : heap) (item : ImageItem Image) : list (string * value) :=
  default [] (meta_cells h !! meta item).

(** The content of [meta.get('tags') or {}]. *)
Definition tags_content (h : heap) (m : list (string * value))
  : list (string * score) :=
  match Dict.get "tags" m with
  | Some (VTags l) => default [] (tag_cells h !! l)
  | _ => []
  end.

Definition tags_of (h : heap) (item : ImageItem Image) : list (string * score) :=
  tags_content h (meta_of h item).

(** The content of [meta.get('danbooru') or {}]. *)
Definition danbooru_content (m : list (string * value))
  : list (string * option string) :=
  match Dict.get "danbooru" m with
  | Some (VRecord r) => r
  | _ => []
  end.

Definition danbooru_of (h : heap) (item : ImageItem Image)
  : list (string * option string) :=
  danbooru_content (meta_of h item).

(** The store holds the item: its metadata dictionary is allocated, ['tags']
    is missing, [None] or an allocated tags dictionary, and ['danbooru'] is
    missing, [None] or a record. *)
Definition tags_slot_ok (h : heap) (m : list (string * value)) : bool :=
  match Dict.get "tags" m with
  | None | Some VNone => true
  | Some (VTags l) => match tag_cells h !! l with Some _ => true | None => false end
  | Some _ => false
  end.

Definition danbooru_slot_ok (m : list (string * value)) : bool :=
  match Dict.get "danbooru" m with
  | None | Some VNone | Some (VRecord _) => true
  | Some _ => false
  end.

Definition wf_item (h : heap) (item : ImageItem Image) : bool :=
  match meta_cells h !! meta item with
  | Some m => tags_slot_ok h m && danbooru_slot_ok m
  | None => false
  end.

(** The store [h'] extends [h]: every dictionary of [h] is in [h'] at the
    same address with the same content. *)
Definition extends (h h' : heap) : Prop :=
  (∀ l d, tag_cells h !! l = Some d → tag_cells h' !! l = Some d)
  ∧ (∀ l m, meta_cells h !! l = Some m → meta_cells h' !! l = Some m).

(** The store and the item a process action leaves: the new tags dictionary
    [d] after the dictionaries [dropped] that the action built on the way,
    and a new metadata dictionary, the old one with ['tags'] overlaid. *)
Definition tagged (h : heap) (item : ImageItem Image)
    (dropped : list (list (string * score))) (d : list (string * score)) : heap :=
  Heap (tag_cells h ++ dropped ++ [d])
       (meta_cells h ++
          [Dict.set "tags" (VTags (length (tag_cells h) + length dropped))
             (meta_of h item)]).

Definition tagged_item (h : heap) (item : ImageItem Image) : ImageItem Image :=
  mkImageItem (image item) (length (meta_cells h)).

(** The frame of a process action that takes [item] in [h] to [item'] in
    [h']: the image is the same, the item's metadata dictionary is a new one,
    equal to the old one with ['tags'] overlaid by a new tags dictionary, and
    every dictionary of [h] is unchanged. *)
Definition frame_kept (h : heap) (item item' : ImageItem Image) (h' : heap) : Prop :=
  image item' = image item
  ∧ meta_cells h !! meta item' = None
  ∧ (∃ l, tag_cells h !! l = None
          ∧ meta_of h' item' = Dict.set "tags" (VTags l) (meta_of h item))
  ∧ (∀ k, k ≠ "tags" →
          Dict.get k (meta_of h' item') = Dict.get k (meta_of h item))
  ∧ extends h h'
  ∧ meta_of h' item = meta_of h item
  ∧ tags_of h' item = tags_of h item.

(** The item's metadata has a ['tags'] key. *)
Definition has_tags (h : heap) (item : ImageItem Image) : bool :=
  match meta_cells h !! meta item with
  | Some m => Dict.mem "tags" m
  | None => false
  end.

(** The store holds the item and ['tags'] is missing or an allocated tags
    dictionary. *)
Definition filterable (h : heap) (item : ImageItem Image) : bool :=
  match meta_cells h !! meta item with
  | Some m =>
      match Dict.get "tags" m with
      | None => true
      | Some (VTags l) =>
          match tag_cells h !! l with Some _ => true | None => false end
      | Some _ => false
      end
  | None => false
  end.

(** [tags.get(tag, 0.0)] on the item's tags. *)
Definition score_in (h : heap) (item : ImageItem Image) (tag : string) : score :=
  default score_zero (Dict.get tag (tags_of h item)).

End observations.

(** ** The updates of a tags dictionary, on its content *)

Definition meta_step (whitelist : list string) (d : list (string * score))
    (meta_tag : string) : list (string * score) :=
  if in_set meta_tag whitelist then Dict.set meta_tag score_zero d
  else if option_truthy (Dict.get meta_tag d) then Dict.del meta_tag d
  else d.

Definition character_step (d : list (string * score)) (character : string)
  : list (string * score) :=
  Dict.set character score_character d.

Definition copyright_step (d : list (string * score)) (copyright : string)
  : list (string * score) :=
  Dict.set copyright score_copyright d.

Definition artist_step (d : list (string * score)) (artist : string)
  : list (string * score) :=
  Dict.del artist
    (Dict.set ("artist:" +:+ artist) score_artist
       (Dict.set artist score_artist d)).

(** The tokens of the four tag strings of a [danbooru] record. *)
Definition meta_tokens (danbooru : list (string * option string)) : list string :=
  split (tag_string danbooru "tag_string_meta").
Definition character_tokens (danbooru : list (string * option string)) : list string :=
  split (tag_string danbooru "tag_string_character").
Definition copyright_tokens (danbooru : list (string * option string)) : list string :=
  split (tag_string danbooru "tag_string_copyright").
Definition artist_tokens (danbooru : list (string * option string)) : list string :=
  split (tag_string danbooru "tag_string_artist").

Definition by_artist (artist : string) : string := "artist:" +:+ artist.

Definition danbooru_tags (whitelist : list string)
    (danbooru : list (string * option string)) (d : list (string * score))
  : list (string * score) :=
  match danbooru with
  | [] => d
  | _ =>
      fold_left artist_step (artist_tokens danbooru)
        (fold_left copyright_step (copyright_tokens danbooru)
           (fold_left character_step (character_tokens danbooru)
              (fold_left (meta_step whitelist) (meta_tokens danbooru) d)))
  end.

Definition rating_tags (rating : string) (x : score)
    (d : list (string * score)) : list (string * score) :=
  let d1 := if String.eqb rating "r15" then Dict.set "nsfw" x d else d in
  if String.eqb rating "r18" then Dict.set "explicit" x d1 else d1.

(** ** Sample items

    Images are numbers here and the keyword arguments are empty. *)

Definition sample_backend (_ : TaggingMethodTyping) (_ : nat) (_ : unit)
  : list (string * score) :=
  [("1girl", 0.9%float); ("solo", 0.5%float)].

Definition sample_rating (img : nat) : string * score :=
  match img with
  | 0 => ("r18", 0.9%float)
  | 1 => ("r15", 0.7%float)
  | _ => ("safe", 0.5%float)
  end.

Fixpoint underline_to_space (s : string) : string :=
  match s with
  | EmptyString => EmptyString
  | String c r =>
      String (if Ascii.eqb c "_"%char then " "%char else c) (underline_to_space r)
  end.

Definition sample_blacklisted (tag : string) : bool := String.eqb tag "watermark".

(** A danbooru post, tagged [random_tag] and [solo] by a backend. *)
Definition sample_heap : heap :=
  Heap [ [("random_tag", 0.8%float); ("solo", 0.9%float)] ]
       [ [("filename", VStr "danbooru_1.png");
          ("tags", VTags 0);
          ("danbooru",
           VRecord [("tag_string_meta", Some "official_art random_tag");
                    ("tag_string_character", Some "alice");
                    ("tag_string_copyright", Some "wonderland");
                    ("tag_string_artist", Some "bob")])] ].

Definition sample_item : ImageItem nat := mkImageItem 0 0.

Definition sample_action : DanbooruTagProcessAction :=
  mkDanbooruTagProcessAction ["official_art"].

(** A post that lists [official_art] as a meta tag and as a character. *)
Definition meta_and_character_heap : heap :=
  Heap [ [("solo", 0.9%float)] ]
       [ [("tags", VTags 0);
          ("danbooru",
           VRecord [("tag_string_meta", Some "official_art");
                    ("tag_string_character", Some "official_art")])] ].

(** A post that lists [official_art] as a meta tag and as an artist. *)
Definition meta_and_artist_heap : heap :=
  Heap [ [("solo", 0.9%float)] ]
       [ [("tags", VTags 0);
          ("danbooru",
           VRecord [("tag_string_meta", Some "official_art");
                    ("tag_string_artist", Some "official_art")])] ].

(** A post that lists [alice] as a character and as a copyright. *)
Definition character_and_copyright_heap : heap :=
  Heap [ [("solo", 0.9%float)] ]
       [ [("tags", VTags 0);
          ("danbooru",
           VRecord [("tag_string_character", Some "alice");
                    ("tag_string_copyright", Some "alice")])] ].

(** A post whose meta tag [random_tag] is in the tags with the score 0. *)
Definition zero_score_heap : heap :=
  Heap [ [("random_tag", 0%float); ("solo", 0.9%float)] ]
       [ [("tags", VTags 0);
          ("danbooru", VRecord [("tag_string_meta", Some "random_tag")])] ].

(** An item whose tag [solo] has the score [nan]. *)
Definition nan_heap : heap :=
  Heap [ [("solo", nan)] ] [ [("tags", VTags 0)] ].

(** An item whose ['tags'] entry is [None]. *)
Definition none_tags_heap : heap :=
  Heap [] [ [("filename", VStr "zerochan_2.png"); ("tags", VNone)] ].

(** An item that has not been tagged. *)
Definition untagged_heap : heap :=
  Heap [] [ [("filename", VStr "zerochan_1.png")] ].

Definition sample_zerochan : list nat := seq 0 20.
Definition sample_danbooru : list nat := seq 100 20.

(** ** The rest of the module *)

(** A Python dictionary has pairwise distinct keys. *)
Fixpoint distinct_keys {V} (d : list (string * V)) : bool :=
  match d with
  | [] => true
  | (k, _) :: r => negb (Dict.mem k r) && distinct_keys r
  end.

(** [{**a, **b}] *)
Definition dict_merge {V} (a b : list (string * V)) : list (string * V) :=
  fold_left (λ acc '(k, v), Dict.set k v acc) b a.

(** The entries a comprehension writes, in the order it writes them. *)
Definition written (key : string → string) (keep : string → bool)
    (d : list (string * score)) : list (string * score) :=
  map (λ '(tag, x), (key tag, x)) (List.filter (λ '(tag, _), keep tag) d).

(** The score of the last entry of [d] written under the key [k]. *)
Definition last_written (key : string → string) (keep : string → bool)
    (d : list (string * score)) (k : string) : option score :=
  Dict.get k (rev (written key keep d)).

(** The three functions a backend of the registry is made of. *)
Inductive tagging_function : Type :=
| deepdanbooru_tagging
| wd14_tagging (model_name : string)
| mldanbooru_tagging.

(** [_TAGGING_METHODS], with [partial(_wd14_tagging, model_name=...)] as the
    function and its bound argument. *)
Definition _TAGGING_METHODS : list (string * tagging_function) :=
  [("deepdanbooru", deepdanbooru_tagging);
   ("wd14_vit", wd14_tagging "ViT");
   ("wd14_convnext", wd14_tagging "ConvNext");
   ("wd14_convnextv2", wd14_tagging "ConvNextV2");
   ("wd14_swinv2", wd14_tagging "SwinV2");
   ("wd14_moat", wd14_tagging "MOAT");
   ("wd14_v3_swinv2", wd14_tagging "SwinV2_v3");
   ("wd14_v3_convnext", wd14_tagging "ConvNext_v3");
   ("wd14_v3_vit", wd14_tagging "ViT_v3");
   ("wd14_v3_eva02_large", wd14_tagging "EVA02_Large");
   ("wd14_v3_vit_large", wd14_tagging "ViT_Large");
   ("mldanbooru", mldanbooru_tagging)].

(** The strings of the [Literal] [TaggingMethodTyping], in its order. *)
Definition TaggingMethodTyping_names : list string :=
  ["deepdanbooru"; "wd14_vit"; "wd14_convnext"; "wd14_convnextv2";
   "wd14_swinv2"; "mldanbooru"; "wd14_moat"; "wd14_v3_swinv2";
   "wd14_v3_convnext"; "wd14_v3_vit"; "wd14_v3_eva02_large";
   "wd14_v3_vit_large"].

Definition DEFAULT_TAGGING_METHOD_name : string := "wd14_v3_eva02_large".

(** [TaggingAction.__init__] on a method given by name: the registry lookup
    [_TAGGING_METHODS[method]] raises [KeyError] on a name it does not have. *)
Definition TaggingAction_init_by_name {Kwargs : Type} (method : string)
    (force : bool) (kwargs : Kwargs)
  : res (tagging_function * bool * Kwargs) :=
  match Dict.get method _TAGGING_METHODS with
  | Some f => Ok (f, force, kwargs)
  | None => Raise KeyError
  end.

(** [TagFilterAction.__init__] on a method given by name and keyword
    arguments given as a dictionary.  The test on [tags] comes first.  The
    call [TaggingAction(method, force=False, **kwargs)] then fails to bind
    its arguments, with [TypeError], when [kwargs] has [force] too; the
    registry lookup comes after that. *)
Definition TagFilterAction_init_by_name {V : Type} (tags : pyobj)
    (method : string) (reversed : bool) (kwargs : list (string * V))
  : res (list (string * score)
         * (tagging_function * bool * list (string * V)) * bool) :=
  let tagger :=
    if Dict.mem "force" kwargs then Raise TypeError
    else TaggingAction_init_by_name method false kwargs in
  match tags with
  | PyList xs | PyTuple xs =>
      match tagger with
      | Ok tagger => Ok (required_of_names xs, tagger, reversed)
      | Raise e => Raise e
      end
  | PyDict d =>
      match tagger with
      | Ok tagger => Ok (d, tagger, reversed)
      | Raise e => Raise e
      end
  | _ => Raise TypeError
  end.

Section backends.
Context {Image : Type}.

(** [get_deepdanbooru_tags] and [get_wd14_tags] of [imgutils] return a
    rating, the features and the characters; [get_mldanbooru_tags] returns
    the features. *)
Variable get_deepdanbooru_tags :
  Image → bool → score → score →
  list (string * score) * list (string * score) * list (string * score).
Variable get_wd14_tags :
  Image → string → score → score →
  list (string * score) * list (string * score) * list (string * score).
Variable get_mldanbooru_tags : Image → bool → score → list (string * score).

Definition _deepdanbooru_tagging (image : Image) (use_real_name : bool)
    (general_threshold character_threshold : score) : list (string * score) :=
  let '(_, features, characters) :=
    get_deepdanbooru_tags image use_real_name general_threshold character_threshold in
  dict_merge features characters.

Definition _wd14_tagging (image : Image) (model_name : string)
    (general_threshold character_threshold : score) : list (string * score) :=
  let '(_, features, characters) :=
    get_wd14_tags image model_name general_threshold character_threshold in
  dict_merge features characters.

Definition _mldanbooru_tagging (image : Image) (use_real_name : bool)
    (general_threshold : score) : list (string * score) :=
  get_mldanbooru_tags image use_real_name general_threshold.

End backends.

(** No name of [d] other than [t] is rewritten by [key] to what [t] is
    rewritten to. *)
Definition rewritten_apart (key : string → string) (d : list (string * score))
    (t : string) : bool :=
  forallb (λ '(t', _), implb (String.eqb (key t') (key t)) (String.eqb t' t)) d.

(** What one loop step, or a sequence of steps, does to the value of one
    key: nothing, a fixed outcome, or removal when the score is not zero. *)
Inductive key_effect : Type :=
| Untouched
| Fixed (outcome : option score)
| DroppedIfTruthy.

Definition apply_effect (e : key_effect) (o : option score) : option score :=
  match e with
  | Untouched => o
  | Fixed outcome => outcome
  | DroppedIfTruthy => if option_truthy o then None else o
  end.

Definition then_effect (e1 e2 : key_effect) : key_effect :=
  match e1, e2 with
  | Untouched, _ => e2
  | _, Untouched => e1
  | Fixed o, _ => Fixed (apply_effect e2 o)
  | DroppedIfTruthy, Fixed o => Fixed o
  | DroppedIfTruthy, DroppedIfTruthy => DroppedIfTruthy
  end.

(** The characters of a string. *)
Fixpoint chars (s : string) : list ascii :=
  match s with
  | EmptyString => []
  | String c r => c :: chars r
  end.

(** An item whose tags hold [long_hair] and, after it, [long hair]. *)
Definition underlined_heap : heap :=
  Heap [ [("long_hair", 0.9%float); ("long hair", 0.3%float);
          ("1girl", 1%float)] ]
       [ [("tags", VTags 0)] ].

Definition sample_deepdanbooru_tags (_ : nat) (_ : bool) (_ _ : score)
  : list (string * score) * list (string * score) * list (string * score) :=
  ([("rating:safe", 1%float)],
   [("solo", 0.9%float); ("alice", 0.2%float)],
   [("alice", 0.95%float)]).

Definition sample_wd14_tags (_ : nat) (_ : string) (_ _ : score)
  : list (string * score) * list (string * score) * list (string * score) :=
  ([("general", 1%float)],
   [("solo", 0.9%float)],
   [("bob", 0.9%float)]).

(** * Properties

    ** Dictionaries *)

Section dict_facts.
Context {V : Type}.
Implicit Types (d : list (string * V)) (k : string) (v : V).

Lemma dict_get_set_eq k v d : Dict.get k (Dict.set k v d) = Some v.
Proof.
  induction d as [|[k' v'] r IH]; simpl.
  - by rewrite String.eqb_refl.
  - destruct (String.eqb k k') eqn:E; simpl; rewrite ?String.eqb_refl, ?E; auto.
Qed.

Lemma dict_get_set_ne k k' v d : k ≠ k' → Dict.get k' (Dict.set k v d) = Dict.get k' d.
Proof.
  intros Hne. induction d as [|[k0 v0] r IH]; simpl.
  - apply String.eqb_neq in Hne. rewrite String.eqb_sym in Hne. by rewrite Hne.
  - destruct (String.eqb k k0) eqn:E; simpl.
    + apply String.eqb_eq in E. subst k0.
      assert (String.eqb k' k = false) as -> by (apply String.eqb_neq; congruence).
      done.
    + destruct (String.eqb k' k0); auto.
Qed.

Lemma dict_get_del_eq k d : Dict.get k (Dict.del k d) = None.
Proof.
  induction d as [|[k' v'] r IH]; simpl; auto.
  destruct (String.eqb k k') eqn:E; simpl; rewrite ?E; auto.
Qed.

Lemma dict_get_del_ne k k' d : k ≠ k' → Dict.get k' (Dict.del k d) = Dict.get k' d.
Proof.
  intros Hne. induction d as [|[k0 v0] r IH]; simpl; auto.
  destruct (String.eqb k k0) eqn:E; simpl.
  - apply String.eqb_eq in E. subst k0.
    assert (String.eqb k' k = false) as -> by (apply String.eqb_neq; congruence).
    done.
  - destruct (String.eqb k' k0); auto.
Qed.
End dict_facts.

(** ** Strings *)

Lemma length_append s1 s2 :
  String.length (s1 +:+ s2) = String.length s1 + String.length s2.
Proof.
  induction s1 as [|c s1 IH]; [done|].
  change (String c s1 +:+ s2) with (String c (s1 +:+ s2)).
  simpl. by rewrite IH.
Qed.

Lemma artist_prefix_ne artist : artist ≠ "artist:" +:+ artist.
Proof.
  intros Heq. apply (f_equal String.length) in Heq.
  rewrite length_append in Heq. simpl in Heq. lia.
Qed.

(** ** The store *)

Lemma heap_eta h : Heap (tag_cells h) (meta_cells h) = h.
Proof. by destruct h. Qed.

Lemma bind_ok {A B} (c : M A) (f : A → M B) h a h' :
  c h = Ok (a, h') → (x <- c ;; f x) h = f a h'.
Proof. unfold bind. by intros ->. Qed.

Lemma write_tags_id l d h : tag_cells h !! l = Some d → write_tags l d h = h.
Proof.
  intros Hl. unfold write_tags. rewrite list_insert_id by done. apply heap_eta.
Qed.

Lemma write_tags_lookup l d d0 h :
  tag_cells h !! l = Some d0 → tag_cells (write_tags l d h) !! l = Some d.
Proof.
  intros Hl. simpl. apply list_lookup_insert_eq. by eapply lookup_lt_Some.
Qed.

Lemma write_tags_twice l d1 d2 h :
  write_tags l d2 (write_tags l d1 h) = write_tags l d2 h.
Proof. unfold write_tags; simpl. by rewrite list_insert_insert_eq. Qed.

Lemma write_tags_last cells d d' ms :
  write_tags (length cells) d' (Heap (cells ++ [d]) ms) = Heap (cells ++ [d']) ms.
Proof.
  unfold write_tags; simpl. f_equal.
  replace (length cells) with (length cells + 0) by lia.
  by rewrite insert_app_r.
Qed.

Lemma lookup_last {A} (cells : list A) d : (cells ++ [d]) !! length cells = Some d.
Proof. by rewrite list_lookup_middle. Qed.

(** A loop whose body rewrites the content of one cell rewrites it by the
    fold of the body. *)
Lemma for_each_on_cell {A} (f : list (string * score) → A → list (string * score))
    (body : A → M unit) l :
  (∀ x h d, tag_cells h !! l = Some d →
            body x h = Ok (tt, write_tags l (f d x) h)) →
  ∀ xs h d, tag_cells h !! l = Some d →
            for_each xs body h = Ok (tt, write_tags l (fold_left f xs d) h).
Proof.
  intros Hbody xs. induction xs as [|x xs IH]; intros h d Hl; simpl.
  - unfold ret. by rewrite write_tags_id.
  - rewrite (bind_ok _ _ _ _ _ (Hbody x h d Hl)).
    rewrite (IH _ (f d x)) by (by eapply write_tags_lookup).
    by rewrite write_tags_twice.
Qed.

Lemma tags_setitem_cell l k v h d :
  tag_cells h !! l = Some d →
  tags_setitem l k v h = Ok (tt, write_tags l (Dict.set k v d) h).
Proof. unfold tags_setitem. by intros ->. Qed.

Lemma meta_body_cell whitelist l meta_tag h d :
  tag_cells h !! l = Some d →
  (if in_set meta_tag whitelist
   then tags_setitem l meta_tag score_zero
   else v <- tags_get l meta_tag ;;
        if option_truthy v then tags_delitem l meta_tag else ret tt) h
  = Ok (tt, write_tags l (meta_step whitelist d meta_tag) h).
Proof.
  intros Hl. unfold meta_step. destruct (in_set meta_tag whitelist).
  - by apply tags_setitem_cell.
  - unfold bind, tags_get. rewrite Hl.
    destruct (Dict.get meta_tag d) as [v|] eqn:Hget; simpl.
    + destruct (score_truthy v).
      * unfold tags_delitem. by rewrite Hl, Hget.
      * unfold ret. by rewrite write_tags_id.
    + unfold ret. by rewrite write_tags_id.
Qed.

Lemma artist_body_cell l artist h d :
  tag_cells h !! l = Some d →
  (_ <- tags_setitem l artist score_artist ;;
   v <- tags_getitem l artist ;;
   _ <- tags_setitem l ("artist:" +:+ artist) v ;;
   tags_delitem l artist) h
  = Ok (tt, write_tags l (artist_step d artist) h).
Proof.
  intros Hl. unfold artist_step.
  rewrite (bind_ok _ _ _ _ _ (tags_setitem_cell l artist score_artist h d Hl)).
  pose proof (write_tags_lookup l (Dict.set artist score_artist d) d h Hl) as H1.
  assert (tags_getitem l artist (write_tags l (Dict.set artist score_artist d) h)
          = Ok (score_artist, write_tags l (Dict.set artist score_artist d) h)) as Hg.
  { unfold tags_getitem. by rewrite H1, dict_get_set_eq. }
  rewrite (bind_ok _ _ _ _ _ Hg).
  rewrite (bind_ok _ _ _ _ _ (tags_setitem_cell l _ score_artist _ _ H1)).
  rewrite write_tags_twice.
  unfold tags_delitem.
  erewrite write_tags_lookup by done.
  pose proof (artist_prefix_ne artist) as Hne.
  rewrite dict_get_set_ne, dict_get_set_eq by (by apply not_eq_sym).
  by rewrite write_tags_twice.
Qed.

(** ** The updates of a tags dictionary *)

Lemma in_set_true x s : in_set x s = true ↔ x ∈ s.
Proof.
  unfold in_set. rewrite existsb_exists. split.
  - intros (y & Hy & ->%String.eqb_eq). by apply list_elem_of_In.
  - intros Hx. exists x. split; [by apply list_elem_of_In|apply String.eqb_refl].
Qed.

Lemma in_set_false x s : in_set x s = false ↔ x ∉ s.
Proof. rewrite <- in_set_true. by destruct (in_set x s). Qed.

(** A loop of [tags[x] = v]. *)
Section set_loop.
Variable v : score.
Variable step : list (string * score) → string → list (string * score).
Hypothesis step_set : ∀ d x, step d x = Dict.set x v d.

Lemma set_loop_other k xs d :
  k ∉ xs → Dict.get k (fold_left step xs d) = Dict.get k d.
Proof.
  revert d. induction xs as [|x xs IH]; intros d Hk; [done|].
  apply not_elem_of_cons in Hk as [Hkx Hk]. simpl.
  rewrite IH, step_set by done. by apply dict_get_set_ne.
Qed.

Lemma set_loop_member k xs d :
  k ∈ xs → Dict.get k (fold_left step xs d) = Some v.
Proof.
  revert d. induction xs as [|x xs IH]; intros d Hk; [by apply elem_of_nil in Hk|].
  simpl. destruct (decide (k ∈ xs)) as [Hin|Hnin]; [by apply IH|].
  apply elem_of_cons in Hk as [->|Hk]; [|done].
  rewrite set_loop_other, step_set by done. apply dict_get_set_eq.
Qed.
End set_loop.

(** The loop over the meta tags. *)
Lemma meta_step_other whitelist d x k :
  k ≠ x → Dict.get k (meta_step whitelist d x) = Dict.get k d.
Proof.
  intros Hk. unfold meta_step. destruct (in_set x whitelist).
  - by apply dict_get_set_ne.
  - destruct (option_truthy (Dict.get x d)); [|done]. by apply dict_get_del_ne.
Qed.

Lemma meta_loop_other whitelist k xs d :
  k ∉ xs → Dict.get k (fold_left (meta_step whitelist) xs d) = Dict.get k d.
Proof.
  revert d. induction xs as [|x xs IH]; intros d Hk; [done|].
  apply not_elem_of_cons in Hk as [Hkx Hk]. simpl.
  rewrite IH by done. by apply meta_step_other.
Qed.

Lemma meta_loop_whitelisted whitelist k xs d :
  in_set k whitelist = true → k ∈ xs →
  Dict.get k (fold_left (meta_step whitelist) xs d) = Some score_zero.
Proof.
  intros Hw. revert d.
  induction xs as [|x xs IH]; intros d Hk; [by apply elem_of_nil in Hk|].
  simpl. destruct (decide (k ∈ xs)) as [Hin|Hnin]; [by apply IH|].
  apply elem_of_cons in Hk as [->|Hk]; [|done].
  rewrite meta_loop_other by done. unfold meta_step. rewrite Hw.
  apply dict_get_set_eq.
Qed.

Lemma meta_loop_absent whitelist k xs d :
  in_set k whitelist = false → Dict.get k d = None →
  Dict.get k (fold_left (meta_step whitelist) xs d) = None.
Proof.
  intros Hw. revert d. induction xs as [|x xs IH]; intros d Hk; [done|].
  simpl. apply IH. destruct (decide (k = x)) as [->|Hne].
  - unfold meta_step. rewrite Hw, Hk. done.
  - by rewrite meta_step_other.
Qed.

Lemma meta_loop_dropped whitelist k xs d :
  in_set k whitelist = false → k ∈ xs →
  option_truthy (Dict.get k d) = true →
  Dict.get k (fold_left (meta_step whitelist) xs d) = None.
Proof.
  intros Hw. revert d.
  induction xs as [|x xs IH]; intros d Hk Ht; [by apply elem_of_nil in Hk|].
  simpl. destruct (decide (k = x)) as [->|Hne].
  - apply meta_loop_absent; [done|]. unfold meta_step. rewrite Hw, Ht.
    apply dict_get_del_eq.
  - apply elem_of_cons in Hk as [?|Hk]; [done|].
    apply IH; [done|]. by rewrite meta_step_other.
Qed.

(** The loop over the artists. *)
Lemma artist_step_self d a : Dict.get a (artist_step d a) = None.
Proof. apply dict_get_del_eq. Qed.

Lemma artist_step_prefixed d a :
  Dict.get (by_artist a) (artist_step d a) = Some score_artist.
Proof.
  unfold artist_step. rewrite dict_get_del_ne by apply artist_prefix_ne.
  apply dict_get_set_eq.
Qed.

Lemma artist_step_other d a k :
  k ≠ a → k ≠ by_artist a → Dict.get k (artist_step d a) = Dict.get k d.
Proof.
  intros H1 H2. unfold artist_step.
  by rewrite dict_get_del_ne, !dict_get_set_ne.
Qed.

Lemma artist_loop_other k xs d :
  k ∉ xs → k ∉ map by_artist xs →
  Dict.get k (fold_left artist_step xs d) = Dict.get k d.
Proof.
  revert d. induction xs as [|x xs IH]; intros d Hk Hp; [done|].
  apply not_elem_of_cons in Hk as [Hkx Hk].
  simpl in Hp. apply not_elem_of_cons in Hp as [Hpx Hp].
  simpl. rewrite IH by done. by apply artist_step_other.
Qed.

Lemma artist_loop_unprefixed k xs d :
  k ∈ xs → k ∉ map by_artist xs →
  Dict.get k (fold_left artist_step xs d) = None.
Proof.
  revert d. induction xs as [|x xs IH]; intros d Hk Hp; [by apply elem_of_nil in Hk|].
  simpl in Hp. apply not_elem_of_cons in Hp as [Hpx Hp]. simpl.
  destruct (decide (k ∈ xs)) as [Hin|Hnin]; [by apply IH|].
  apply elem_of_cons in Hk as [->|Hk]; [|done].
  rewrite artist_loop_other by done. apply artist_step_self.
Qed.

Lemma artist_loop_prefixed a xs d :
  a ∈ xs → by_artist a ∉ xs →
  Dict.get (by_artist a) (fold_left artist_step xs d) = Some score_artist.
Proof.
  revert d. induction xs as [|x xs IH]; intros d Ha Hp; [by apply elem_of_nil in Ha|].
  apply not_elem_of_cons in Hp as [Hpx Hp]. simpl.
  destruct (decide (a ∈ xs)) as [Hin|Hnin]; [by apply IH|].
  apply elem_of_cons in Ha as [->|Ha]; [|done].
  rewrite artist_loop_other; [apply artist_step_prefixed|done|].
  intros (y & Hy & Hyin)%list_elem_of_fmap.
  unfold by_artist in Hy. apply (inj (String.append "artist:")) in Hy. by subst.
Qed.

(** The four loops in sequence. *)
Section danbooru_loops.
Variable whitelist : list string.
Variable danbooru : list (string * option string).
Variable d : list (string * score).
Implicit Types k t c a : string.

Lemma no_tokens_of_empty_record (k : string) : split (tag_string [] k) = [].
Proof. done. Qed.

Lemma danbooru_tags_eq :
  (meta_tokens danbooru ≠ [] ∨ character_tokens danbooru ≠ []
   ∨ copyright_tokens danbooru ≠ [] ∨ artist_tokens danbooru ≠ []) →
  danbooru_tags whitelist danbooru d
  = fold_left artist_step (artist_tokens danbooru)
      (fold_left copyright_step (copyright_tokens danbooru)
         (fold_left character_step (character_tokens danbooru)
            (fold_left (meta_step whitelist) (meta_tokens danbooru) d))).
Proof.
  unfold danbooru_tags. destruct danbooru; [|done].
  unfold meta_tokens, character_tokens, copyright_tokens, artist_tokens.
  rewrite !no_tokens_of_empty_record. intros [?|[?|[?|?]]]; done.
Qed.

Lemma danbooru_tags_character c :
  c ∈ character_tokens danbooru →
  c ∉ copyright_tokens danbooru → c ∉ artist_tokens danbooru →
  c ∉ map by_artist (artist_tokens danbooru) →
  Dict.get c (danbooru_tags whitelist danbooru d) = Some score_character.
Proof.
  intros Hc H1 H2 H3. rewrite danbooru_tags_eq.
  - rewrite artist_loop_other by done.
    rewrite (set_loop_other score_copyright) by done.
    by apply (set_loop_member score_character).
  - right; left. intros E. rewrite E in Hc. by apply elem_of_nil in Hc.
Qed.

Lemma danbooru_tags_copyright c :
  c ∈ copyright_tokens danbooru → c ∉ artist_tokens danbooru →
  c ∉ map by_artist (artist_tokens danbooru) →
  Dict.get c (danbooru_tags whitelist danbooru d) = Some score_copyright.
Proof.
  intros Hc H2 H3. rewrite danbooru_tags_eq.
  - rewrite artist_loop_other by done.
    by apply (set_loop_member score_copyright).
  - right; right; left. intros E. rewrite E in Hc. by apply elem_of_nil in Hc.
Qed.

Lemma danbooru_tags_artist a :
  a ∈ artist_tokens danbooru → by_artist a ∉ artist_tokens danbooru →
  Dict.get (by_artist a) (danbooru_tags whitelist danbooru d) = Some score_artist.
Proof.
  intros Ha Hp. rewrite danbooru_tags_eq.
  - by apply artist_loop_prefixed.
  - do 3 right. intros E. rewrite E in Ha. by apply elem_of_nil in Ha.
Qed.

Lemma danbooru_tags_artist_unprefixed a :
  a ∈ artist_tokens danbooru → a ∉ map by_artist (artist_tokens danbooru) →
  Dict.get a (danbooru_tags whitelist danbooru d) = None.
Proof.
  intros Ha Hp. rewrite danbooru_tags_eq.
  - by apply artist_loop_unprefixed.
  - do 3 right. intros E. rewrite E in Ha. by apply elem_of_nil in Ha.
Qed.

(** A key that the later loops leave alone has the value the meta loop
    gave it. *)
Lemma danbooru_tags_meta_loop t :
  t ∉ character_tokens danbooru → t ∉ copyright_tokens danbooru →
  t ∉ artist_tokens danbooru → t ∉ map by_artist (artist_tokens danbooru) →
  Dict.get t (danbooru_tags whitelist danbooru d)
  = Dict.get t (fold_left (meta_step whitelist) (meta_tokens danbooru) d).
Proof.
  intros H0 H1 H2 H3. unfold danbooru_tags. destruct danbooru as [|p r] eqn:E.
  - done.
  - rewrite artist_loop_other by done.
    rewrite (set_loop_other score_copyright) by done.
    by rewrite (set_loop_other score_character).
Qed.

End danbooru_loops.

(** ** Scores and the filter loop *)

Lemma all_valid_false reversed required tags :
  all_valid reversed required tags = false ↔
  ∃ tag min_score,
    (tag, min_score) ∈ required
    ∧ (if reversed
       then score_lt min_score (default score_zero (Dict.get tag tags))
       else score_lt (default score_zero (Dict.get tag tags)) min_score) = true.
Proof.
  induction required as [|[tag min_score] rest IH]; simpl.
  - split; [done|]. intros (? & ? & []%elem_of_nil & _).
  - destruct reversed; simpl.
    + destruct (score_lt min_score _) eqn:E; simpl.
      * split; [|done]. intros _. exists tag, min_score. split; [left|done].
      * rewrite IH. split.
        -- intros (t & m & Hin & Hlt). exists t, m. split; [by right|done].
        -- intros (t & m & Hin & Hlt).
           apply elem_of_cons in Hin as [[= -> ->]|Hin]; [congruence|eauto].
    + destruct (score_lt _ min_score) eqn:E; simpl.
      * split; [|done]. intros _. exists tag, min_score. split; [left|done].
      * rewrite IH. split.
        -- intros (t & m & Hin & Hlt). exists t, m. split; [by right|done].
        -- intros (t & m & Hin & Hlt).
           apply elem_of_cons in Hin as [[= -> ->]|Hin]; [congruence|eauto].
Qed.

Lemma dict_set_entries {V} k (v : V) d e :
  e ∈ Dict.set k v d → e = (k, v) ∨ e ∈ d.
Proof.
  induction d as [|[k' v'] r IH]; simpl.
  - intros ->%list_elem_of_singleton. by left.
  - destruct (String.eqb k k').
    + intros [->|?]%elem_of_cons; [by left|right; by right].
    + intros [->|?]%elem_of_cons; [right; left|].
      destruct IH as [?|?]; [done|by left|right; by right].
Qed.

Lemma dict_set_has {V} k (v : V) d : (k, v) ∈ Dict.set k v d.
Proof.
  induction d as [|[k' v'] r IH]; simpl; [left|].
  destruct (String.eqb k k'); [left|by right].
Qed.

Lemma dict_set_keeps {V} k (v : V) d a b :
  (a, b) ∈ d → a ≠ k → (a, b) ∈ Dict.set k v d.
Proof.
  intros Hin Hne. induction d as [|[k' v'] r IH]; simpl;
    [by apply elem_of_nil in Hin|].
  destruct (String.eqb_spec k k') as [->|Hk].
  - apply elem_of_cons in Hin as [[= ? ?]|?]; [done|by right].
  - apply elem_of_cons in Hin as [->|?]; [left|right; auto].
Qed.

Lemma required_of_names_entries names tag min_score :
  (tag, min_score) ∈ required_of_names names ↔
  tag ∈ names ∧ min_score = score_present.
Proof.
  unfold required_of_names.
  assert (∀ acc,
    (∀ e, e ∈ acc → e.2 = score_present) →
    ((tag, min_score) ∈ fold_left (λ d t, Dict.set t score_present d) names acc ↔
     (tag ∈ names ∨ (tag, min_score) ∈ acc) ∧ min_score = score_present)) as H.
  { induction names as [|x names IH]; intros acc Hacc; simpl.
    - split.
      + intros Hin. split; [by right|]. apply (Hacc _ Hin).
      + intros [[[]%elem_of_nil|?] _]. done.
    - rewrite IH.
      + split.
        * intros [[?|Hin] ->]; (split; [|done]).
          -- left. by right.
          -- apply dict_set_entries in Hin as [[= -> ]|?]; [left; left|by right].
        * intros [[[->|?]%elem_of_cons|Hin] ->]; (split; [|done]).
          -- right. apply dict_set_has.
          -- by left.
          -- destruct (decide (tag = x)) as [->|Hne].
             ++ right. apply dict_set_has.
             ++ right. by apply dict_set_keeps.
      + intros e [->|?]%dict_set_entries; [done|auto]. }
  rewrite (H []) by (intros ? []%elem_of_nil).
  split; [intros [[?|[]%elem_of_nil] ?]|intros [? ?]]; auto.
Qed.

(** ** The actions, run on a store *)

Section action_facts.
Context {Image Kwargs : Type}.
Variable tagging_backend :
  TaggingMethodTyping → Image → Kwargs → list (string * score).
Variable drop_overlap_tags : list (string * score) → list (string * score).
Variable is_blacklisted : string → bool.
Variable remove_underline : string → string.
Variable anime_rating : Image → string * score.
Implicit Types (h : heap) (item : ImageItem Image).

Lemma wf_item_meta h item :
  wf_item h item = true →
  meta_cells h !! meta item = Some (meta_of h item)
  ∧ tags_slot_ok h (meta_of h item) = true
  ∧ danbooru_slot_ok (meta_of h item) = true.
Proof.
  unfold wf_item, meta_of. destruct (meta_cells h !! meta item) as [m|]; [|done].
  simpl. intros [? ?]%andb_prop. done.
Qed.

Lemma tags_or_empty_ok h m :
  tags_slot_ok h m = true → tags_or_empty m h = Ok (tags_content h m, h).
Proof.
  unfold tags_slot_ok, tags_or_empty, tags_content.
  destruct (Dict.get "tags" m) as [[| |l|]|]; try done.
  unfold read_tags. by destruct (tag_cells h !! l).
Qed.

Lemma danbooru_or_empty_ok h m :
  danbooru_slot_ok m = true → danbooru_or_empty m h = Ok (danbooru_content m, h).
Proof.
  unfold danbooru_slot_ok, danbooru_or_empty, danbooru_content.
  by destruct (Dict.get "danbooru" m) as [[| | |]|].
Qed.

Lemma copy_tags_ok h m :
  tags_slot_ok h m = true →
  (d <- tags_or_empty m ;; new_tags d) h
  = Ok (length (tag_cells h),
        Heap (tag_cells h ++ [tags_content h m]) (meta_cells h)).
Proof. intros Hm. by rewrite (bind_ok _ _ _ _ _ (tags_or_empty_ok h m Hm)). Qed.

Lemma with_tags_ok item l h m :
  meta_cells h !! meta item = Some m →
  with_tags item l h
  = Ok (mkImageItem (image item) (length (meta_cells h)),
        Heap (tag_cells h) (meta_cells h ++ [Dict.set "tags" (VTags l) m])).
Proof. intros Hm. unfold with_tags, bind, read_meta. by rewrite Hm. Qed.

(** *** What [tagged] holds *)

Lemma tagged_extends h item dropped d : extends h (tagged h item dropped d).
Proof. split; intros l x Hl; simpl; by apply lookup_app_l_Some. Qed.

Lemma tagged_meta h item dropped d :
  meta_of (tagged h item dropped d) (tagged_item h item)
  = Dict.set "tags" (VTags (length (tag_cells h) + length dropped)) (meta_of h item).
Proof. unfold meta_of at 1. simpl. by rewrite lookup_last. Qed.

Lemma tagged_tags h item dropped d :
  tags_of (tagged h item dropped d) (tagged_item h item) = d.
Proof.
  unfold tags_of. rewrite tagged_meta. unfold tags_content.
  rewrite dict_get_set_eq. simpl.
  rewrite app_assoc, <- length_app. by rewrite lookup_last.
Qed.

Lemma tagged_item_tags h item dropped d :
  item_tags (tagged_item h item) (tagged h item dropped d)
  = Ok (VTags (length (tag_cells h) + length dropped), tagged h item dropped d).
Proof.
  unfold item_tags, bind, read_meta. simpl. rewrite lookup_last.
  by rewrite dict_get_set_eq.
Qed.

Lemma tagged_tag_cell h item dropped d :
  tag_cells (tagged h item dropped d) !! (length (tag_cells h) + length dropped)
  = Some d.
Proof. simpl. rewrite app_assoc, <- length_app. by rewrite lookup_last. Qed.

Lemma filter_loop_on_dict reversed required l h d :
  tag_cells h !! l = Some d →
  filter_loop reversed required (VTags l) h
  = Ok (all_valid reversed required d, h).
Proof.
  intros Hl. induction required as [|[tag min_score] rest IH]; simpl; [done|].
  unfold bind at 1. unfold tags_get_default, bind, tags_get. rewrite Hl.
  unfold ret at 1.
  destruct ((negb reversed && score_lt _ min_score) || _); [done|apply IH].
Qed.

Lemma tagged_other_keys h item dropped d k :
  k ≠ "tags" →
  Dict.get k (meta_of (tagged h item dropped d) (tagged_item h item))
  = Dict.get k (meta_of h item).
Proof. intros Hk. rewrite tagged_meta. by apply dict_get_set_ne. Qed.

(** *** The runs of the process actions *)

Lemma DanbooruTagProcessAction_run self item h :
  wf_item h item = true →
  DanbooruTagProcessAction_process self item h
  = Ok (tagged_item h item,
        tagged h item []
          (danbooru_tags (meta_whitelist self) (danbooru_of h item) (tags_of h item))).
Proof.
  intros (Hm & Ht & Hd)%wf_item_meta.
  unfold DanbooruTagProcessAction_process.
  unfold bind at 1. unfold read_meta. rewrite Hm.
  rewrite (bind_ok _ _ _ _ _ (copy_tags_ok h _ Ht)).
  rewrite (bind_ok _ _ _ _ _ (danbooru_or_empty_ok _ _ Hd)).
  set (l := length (tag_cells h)).
  set (h1 := Heap (tag_cells h ++ [tags_content h (meta_of h item)]) (meta_cells h)).
  assert (tag_cells h1 !! l = Some (tags_of h item)) as Hl by apply lookup_last.
  unfold danbooru_tags, danbooru_of, tagged, tagged_item.
  destruct (danbooru_content (meta_of h item)) as [|p r] eqn:Hr.
  - unfold bind at 1. unfold ret at 1.
    rewrite (with_tags_ok item l h1 _ Hm). simpl. by rewrite Nat.add_0_r.
  - set (dan := p :: r).
    erewrite bind_ok; cycle 1.
    { erewrite bind_ok; cycle 1.
      { apply (for_each_on_cell (meta_step (meta_whitelist self))); [|exact Hl].
        intros x h' d' Hd'. by apply meta_body_cell. }
      erewrite bind_ok; cycle 1.
      { apply (for_each_on_cell character_step).
        - intros x h' d' Hd'. by apply tags_setitem_cell.
        - by eapply write_tags_lookup. }
      rewrite write_tags_twice.
      erewrite bind_ok; cycle 1.
      { apply (for_each_on_cell copyright_step).
        - intros x h' d' Hd'. by apply tags_setitem_cell.
        - by eapply write_tags_lookup. }
      rewrite write_tags_twice.
      apply (for_each_on_cell artist_step).
      - intros x h' d' Hd'. by apply artist_body_cell.
      - by eapply write_tags_lookup. }
    rewrite write_tags_twice. unfold h1, l. rewrite write_tags_last.
    match goal with |- with_tags _ _ ?h2 = _ => rewrite (with_tags_ok item _ h2 _ Hm) end.
    simpl. by rewrite Nat.add_0_r.
Qed.


Lemma TagNSFWOrExplicitAction_run item h :
  wf_item h item = true →
  TagNSFWOrExplicitAction_process anime_rating item h
  = Ok (tagged_item h item,
        tagged h item []
          (rating_tags (anime_rating (image item)).1 (anime_rating (image item)).2
             (tags_of h item))).
Proof.
  intros (Hm & Ht & Hd)%wf_item_meta.
  unfold TagNSFWOrExplicitAction_process, rating_tags.
  destruct (anime_rating (image item)) as [rating x]. simpl.
  unfold bind at 1. unfold read_meta. rewrite Hm.
  rewrite (bind_ok _ _ _ _ _ (copy_tags_ok h _ Ht)).
  set (l := length (tag_cells h)).
  set (h1 := Heap (tag_cells h ++ [tags_content h (meta_of h item)]) (meta_cells h)).
  assert (tag_cells h1 !! l = Some (tags_of h item)) as Hl by apply lookup_last.
  set (d1 := if String.eqb rating "r15"
             then Dict.set "nsfw" x (tags_of h item) else tags_of h item).
  assert ((if String.eqb rating "r15" then tags_setitem l "nsfw" x else ret tt) h1
          = Ok (tt, write_tags l d1 h1)) as H15.
  { unfold d1. destruct (String.eqb rating "r15").
    - by apply tags_setitem_cell.
    - unfold ret. by rewrite write_tags_id. }
  rewrite (bind_ok _ _ _ _ _ H15).
  set (d2 := if String.eqb rating "r18" then Dict.set "explicit" x d1 else d1).
  assert ((if String.eqb rating "r18" then tags_setitem l "explicit" x else ret tt)
            (write_tags l d1 h1)
          = Ok (tt, write_tags l d2 h1)) as H18.
  { unfold d2. destruct (String.eqb rating "r18").
    - erewrite tags_setitem_cell by (by eapply write_tags_lookup).
      by rewrite write_tags_twice.
    - by unfold ret. }
  rewrite (bind_ok _ _ _ _ _ H18).
  unfold h1, l. rewrite write_tags_last.
  match goal with |- with_tags _ _ ?h2 = _ => rewrite (with_tags_ok item _ h2 _ Hm) end.
  unfold tagged, tagged_item. simpl. by rewrite Nat.add_0_r.
Qed.

Lemma rebuild_tags_run key keep item h :
  wf_item h item = true →
  rebuild_tags key keep item h
  = Ok (tagged_item h item,
        tagged h item [tags_of h item] (comprehension key keep (tags_of h item))).
Proof.
  intros (Hm & Ht & Hd)%wf_item_meta.
  unfold rebuild_tags.
  unfold bind at 1. unfold read_meta. rewrite Hm.
  rewrite (bind_ok _ _ _ _ _ (copy_tags_ok h _ Ht)).
  unfold bind at 1. unfold read_tags. simpl. rewrite lookup_last.
  unfold bind at 1. unfold new_tags at 1. simpl.
  match goal with |- with_tags _ _ ?h2 = _ => rewrite (with_tags_ok item _ h2 _ Hm) end.
  unfold tagged, tagged_item, tags_of. simpl.
  rewrite length_app, <- app_assoc. simpl. done.
Qed.

Lemma TagOverlapDropAction_run item h :
  wf_item h item = true →
  TagOverlapDropAction_process drop_overlap_tags item h
  = Ok (tagged_item h item,
        tagged h item [tags_of h item] (drop_overlap_tags (tags_of h item))).
Proof.
  intros (Hm & Ht & Hd)%wf_item_meta.
  unfold TagOverlapDropAction_process.
  unfold bind at 1. unfold read_meta. rewrite Hm.
  rewrite (bind_ok _ _ _ _ _ (copy_tags_ok h _ Ht)).
  unfold bind at 1. unfold read_tags. simpl. rewrite lookup_last.
  unfold bind at 1. unfold new_tags at 1. simpl.
  match goal with |- with_tags _ _ ?h2 = _ => rewrite (with_tags_ok item _ h2 _ Hm) end.
  unfold tagged, tagged_item, tags_of. simpl.
  rewrite length_app, <- app_assoc. simpl. done.
Qed.

Lemma TaggingAction_run_cached self item h m :
  meta_cells h !! meta item = Some m →
  Dict.mem "tags" m = true → ta_force self = false →
  TaggingAction_process tagging_backend self item h = Ok (item, h).
Proof.
  intros Hm Hmem Hforce. unfold TaggingAction_process, bind, read_meta.
  by rewrite Hm, Hmem, Hforce.
Qed.

Lemma TaggingAction_run_fresh self item h m :
  meta_cells h !! meta item = Some m →
  Dict.mem "tags" m && negb (ta_force self) = false →
  TaggingAction_process tagging_backend self item h
  = Ok (tagged_item h item,
        tagged h item []
          (tagging_backend (ta_method self) (image item) (ta_kwargs self))).
Proof.
  intros Hm Hc. unfold TaggingAction_process.
  unfold bind at 1. unfold read_meta. rewrite Hm, Hc.
  unfold bind at 1. unfold new_tags at 1.
  match goal with |- with_tags _ _ ?h2 = _ => rewrite (with_tags_ok item _ h2 _ Hm) end.
  unfold tagged, tagged_item, meta_of. rewrite Hm. simpl. by rewrite Nat.add_0_r.
Qed.


(** ** DanbooruTagProcessAction *)

(** C1, as amended.  For an item with a [danbooru] block and a token [t] of
    its [tag_string_meta] that is neither a character, copyright or artist
    token nor an artist token prefixed with [artist:], the action returns and:
    if [t] is in the whitelist the output tags give it the score 0; if it is
    not and the input tags hold it with a score that is not zero, the output
    tags do not hold it; if it is not and the input tags do not hold it, the
    output tags do not hold it either. *)
Theorem C1_meta_tokens (self : DanbooruTagProcessAction) item h t :
  wf_item h item = true →
  in_set t (meta_tokens (danbooru_of h item)) = true →
  in_set t (character_tokens (danbooru_of h item)) = false →
  in_set t (copyright_tokens (danbooru_of h item)) = false →
  in_set t (artist_tokens (danbooru_of h item)) = false →
  in_set t (map by_artist (artist_tokens (danbooru_of h item))) = false →
  ∃ item' h',
    DanbooruTagProcessAction_process self item h = Ok (item', h')
    ∧ (in_set t (meta_whitelist self) = true →
       Dict.get t (tags_of h' item') = Some score_zero)
    ∧ (in_set t (meta_whitelist self) = false →
       option_truthy (Dict.get t (tags_of h item)) = true →
       Dict.get t (tags_of h' item') = None)
    ∧ (in_set t (meta_whitelist self) = false →
       Dict.get t (tags_of h item) = None →
       Dict.get t (tags_of h' item') = None).
Proof.
  intros Hwf Hm%in_set_true H1%in_set_false H2%in_set_false H3%in_set_false
    H4%in_set_false.
  eexists _, _. split; [by apply DanbooruTagProcessAction_run|].
  rewrite tagged_tags, danbooru_tags_meta_loop by done.
  split; [|split].
  - intros Hw. by apply meta_loop_whitelisted.
  - intros Hw Ht. by apply meta_loop_dropped.
  - intros Hw Ha. by apply meta_loop_absent.
Qed.

(** C10, as amended.  A token of [tag_string_meta] that is in the whitelist,
    that the input tags do not hold, and that is neither a character,
    copyright or artist token nor an artist token prefixed with [artist:], is
    in the output tags with the score 0. *)
Theorem C10_whitelisted_meta_inserted (self : DanbooruTagProcessAction) item h t :
  wf_item h item = true →
  in_set t (meta_tokens (danbooru_of h item)) = true →
  in_set t (meta_whitelist self) = true →
  Dict.get t (tags_of h item) = None →
  in_set t (character_tokens (danbooru_of h item)) = false →
  in_set t (copyright_tokens (danbooru_of h item)) = false →
  in_set t (artist_tokens (danbooru_of h item)) = false →
  in_set t (map by_artist (artist_tokens (danbooru_of h item))) = false →
  ∃ item' h',
    DanbooruTagProcessAction_process self item h = Ok (item', h')
    ∧ Dict.get t (tags_of h' item') = Some score_zero.
Proof.
  intros Hwf Hm%in_set_true Hw _ H1%in_set_false H2%in_set_false H3%in_set_false
    H4%in_set_false.
  eexists _, _. split; [by apply DanbooruTagProcessAction_run|].
  rewrite tagged_tags, danbooru_tags_meta_loop by done.
  by apply meta_loop_whitelisted.
Qed.

(** C6, as amended.  The action returns on every item the store holds.  With
    a [danbooru] block, the output tags give 2.9 to each character token that
    is not also a copyright token, an artist token or a prefixed artist
    token, and 2.8 to each copyright token that is not also an artist token
    or a prefixed artist token; for each artist token [a] they give 2.7 to
    [artist:a] unless [artist:a] is itself an artist token, and do not hold
    [a] unless [a] is a prefixed artist token.  Without a block (the key
    missing, [None] or an empty record) the output tags are the input
    tags. *)
Theorem C6_danbooru_reshaping (self : DanbooruTagProcessAction) item h :
  wf_item h item = true →
  ∃ item' h',
    DanbooruTagProcessAction_process self item h = Ok (item', h')
    ∧ (∀ c, in_set c (character_tokens (danbooru_of h item)) = true →
            in_set c (copyright_tokens (danbooru_of h item)) = false →
            in_set c (artist_tokens (danbooru_of h item)) = false →
            in_set c (map by_artist (artist_tokens (danbooru_of h item))) = false →
            Dict.get c (tags_of h' item') = Some score_character)
    ∧ (∀ c, in_set c (copyright_tokens (danbooru_of h item)) = true →
            in_set c (artist_tokens (danbooru_of h item)) = false →
            in_set c (map by_artist (artist_tokens (danbooru_of h item))) = false →
            Dict.get c (tags_of h' item') = Some score_copyright)
    ∧ (∀ a, in_set a (artist_tokens (danbooru_of h item)) = true →
            in_set (by_artist a) (artist_tokens (danbooru_of h item)) = false →
            Dict.get (by_artist a) (tags_of h' item') = Some score_artist)
    ∧ (∀ a, in_set a (artist_tokens (danbooru_of h item)) = true →
            in_set a (map by_artist (artist_tokens (danbooru_of h item))) = false →
            Dict.get a (tags_of h' item') = None)
    ∧ (danbooru_of h item = [] → tags_of h' item' = tags_of h item).
Proof.
  intros Hwf. eexists _, _. split; [by apply DanbooruTagProcessAction_run|].
  rewrite tagged_tags. repeat split.
  - intros c Hc%in_set_true H1%in_set_false H2%in_set_false H3%in_set_false.
    by apply danbooru_tags_character.
  - intros c Hc%in_set_true H2%in_set_false H3%in_set_false.
    by apply danbooru_tags_copyright.
  - intros a Ha%in_set_true Hp%in_set_false. by apply danbooru_tags_artist.
  - intros a Ha%in_set_true Hp%in_set_false.
    by apply danbooru_tags_artist_unprefixed.
  - by intros ->.
Qed.


(** ** The frame of the process actions *)

Lemma extends_meta_of h h' item :
  extends h h' → wf_item h item = true → meta_of h' item = meta_of h item.
Proof.
  intros [_ Hm] (Hc & _)%wf_item_meta.
  apply Hm in Hc. unfold meta_of at 1. by rewrite Hc.
Qed.

Lemma extends_tags_of h h' item :
  extends h h' → wf_item h item = true → tags_of h' item = tags_of h item.
Proof.
  intros Hext Hwf. unfold tags_of. rewrite (extends_meta_of _ _ _ Hext Hwf).
  apply wf_item_meta in Hwf as (_ & Ht & _). destruct Hext as [Hc _].
  unfold tags_content, tags_slot_ok in *.
  destruct (Dict.get "tags" (meta_of h item)) as [[| |l|]|]; try done.
  destruct (tag_cells h !! l) as [d|] eqn:Hl; [|done]. by rewrite (Hc _ _ Hl).
Qed.

Lemma tagged_frame h item dropped d :
  wf_item h item = true →
  frame_kept h item (tagged_item h item) (tagged h item dropped d).
Proof.
  intros Hwf. pose proof (tagged_extends h item dropped d) as Hext.
  repeat split; try apply Hext.
  - simpl. by apply lookup_ge_None_2.
  - exists (length (tag_cells h) + length dropped). split.
    + apply lookup_ge_None_2. lia.
    + apply tagged_meta.
  - intros k Hk. by apply tagged_other_keys.
  - by apply extends_meta_of.
  - by apply extends_tags_of.
Qed.


(** C7.  Each of the six tag-mutating process actions, on every item the
    store holds, returns a new item with the input's image, whose metadata is
    a new dictionary equal to the input's with only ['tags'] overlaid (by a
    new tags dictionary; every other key is unchanged), and leaves every
    dictionary of the store as it was, the input's metadata and tags
    dictionaries among them. *)
Theorem C7_process_frame (action : TagProcessAction) item h :
  wf_item h item = true →
  ∃ item' h',
    process drop_overlap_tags is_blacklisted remove_underline anime_rating
      action item h = Ok (item', h')
    ∧ frame_kept h item item' h'.
Proof.
  intros Hwf. destruct action as [|self| |self| |]; simpl; eexists _, _.
  - split; [by apply TagOverlapDropAction_run|by apply tagged_frame].
  - split; [by apply DanbooruTagProcessAction_run|by apply tagged_frame].
  - split; [by apply TagNSFWOrExplicitAction_run|by apply tagged_frame].
  - split; [by apply rebuild_tags_run|by apply tagged_frame].
  - split; [by apply rebuild_tags_run|by apply tagged_frame].
  - split; [by apply rebuild_tags_run|by apply tagged_frame].
Qed.

(** ** TagNSFWOrExplicitAction *)

(** C8.  With [(rating, score)] the classifier's result on the item's image:
    for [r15] the output tags give [score] to ['nsfw']; for [r18] they give
    [score] to ['explicit'] and hold ['nsfw'] exactly as the input tags do;
    for any other rating the output tags are the input tags. *)
Theorem C8_rating_mapping item h :
  wf_item h item = true →
  ∃ item' h',
    TagNSFWOrExplicitAction_process anime_rating item h = Ok (item', h')
    ∧ ((anime_rating (image item)).1 = "r15" →
       Dict.get "nsfw" (tags_of h' item') = Some (anime_rating (image item)).2)
    ∧ ((anime_rating (image item)).1 = "r18" →
       Dict.get "explicit" (tags_of h' item') = Some (anime_rating (image item)).2
       ∧ Dict.get "nsfw" (tags_of h' item') = Dict.get "nsfw" (tags_of h item))
    ∧ ((anime_rating (image item)).1 ≠ "r15" →
       (anime_rating (image item)).1 ≠ "r18" →
       tags_of h' item' = tags_of h item).
Proof.
  intros Hwf. eexists _, _. split; [by apply TagNSFWOrExplicitAction_run|].
  rewrite tagged_tags. unfold rating_tags.
  destruct (anime_rating (image item)) as [rating x]. simpl.
  split; [|split].
  - intros ->. simpl. by rewrite dict_get_set_eq.
  - intros ->. simpl. split; [by rewrite dict_get_set_eq|].
    by rewrite dict_get_set_ne.
  - intros H15%String.eqb_neq H18%String.eqb_neq. by rewrite H15, H18.
Qed.


(** ** TaggingAction and TagFilterAction *)

(** C3.  On an item whose metadata has a ['tags'] key, [process] with
    [force=False] returns the item itself and leaves the store as it was; so
    does a second application to the result, and the tags read from the
    result are those read from the input. *)
Theorem C3_tagging_memoized (self : TaggingAction Kwargs) item h :
  has_tags h item = true → ta_force self = false →
  TaggingAction_process tagging_backend self item h = Ok (item, h)
  ∧ (item1 <- TaggingAction_process tagging_backend self item ;;
     TaggingAction_process tagging_backend self item1) h = Ok (item, h).
Proof.
  unfold has_tags. intros Hm Hforce.
  destruct (meta_cells h !! meta item) as [m|] eqn:Hc; [|done].
  pose proof (TaggingAction_run_cached self item h m Hc Hm Hforce) as Hrun.
  split; [done|]. by rewrite (bind_ok _ _ _ _ _ Hrun).
Qed.

Lemma TagFilterAction_iter_run (self : TagFilterAction Kwargs) item h :
  filterable h item = true →
  ∃ item' h',
    TaggingAction_process tagging_backend (tf_tagger self) item h = Ok (item', h')
    ∧ TagFilterAction_iter tagging_backend self item h
      = Ok (if all_valid (tf_reversed self) (tf_tags self) (tags_of h' item')
            then [item'] else [], h').
Proof.
  unfold filterable. intros Hf.
  destruct (meta_cells h !! meta item) as [m|] eqn:Hc; [|done].
  destruct (Dict.mem "tags" m && negb (ta_force (tf_tagger self))) eqn:Hmem.
  - apply andb_prop in Hmem as [Hmem Hforce%negb_true_iff].
    pose proof (TaggingAction_run_cached (tf_tagger self) item h m Hc Hmem Hforce)
      as Hrun.
    exists item, h. split; [done|].
    unfold TagFilterAction_iter, TaggingAction_call.
    rewrite (bind_ok _ _ _ _ _ Hrun).
    unfold Dict.mem in Hmem.
    destruct (Dict.get "tags" m) as [[| |l|]|] eqn:Hget; try done.
    destruct (tag_cells h !! l) as [d|] eqn:Hl; [|done].
    assert (item_tags item h = Ok (VTags l, h)) as Htags.
    { unfold item_tags, bind, read_meta. by rewrite Hc, Hget. }
    rewrite (bind_ok _ _ _ _ _ Htags).
    rewrite (bind_ok _ _ _ _ _ (filter_loop_on_dict _ _ _ _ _ Hl)).
    assert (tags_of h item = d) as ->.
    { unfold tags_of, tags_content, meta_of. rewrite Hc. simpl.
      by rewrite Hget, Hl. }
    by destruct (all_valid _ _ _).
  - pose proof (TaggingAction_run_fresh (tf_tagger self) item h m Hc Hmem) as Hrun.
    eexists _, _. split; [done|].
    unfold TagFilterAction_iter, TaggingAction_call.
    rewrite (bind_ok _ _ _ _ _ Hrun).
    rewrite (bind_ok _ _ _ _ _ (tagged_item_tags _ _ _ _)).
    rewrite (bind_ok _ _ _ _ _
               (filter_loop_on_dict _ _ _ _ _ (tagged_tag_cell _ _ _ _))).
    rewrite tagged_tags. by destruct (all_valid _ _ _).
Qed.

(** C2, as amended.  For an item whose ['tags'] entry is missing or a tags
    mapping, let [item'] be the tagged item (the item itself when it has
    tags, else the item with the backend's tags) and [score_in] its score for
    a tag, 0.0 when absent.  A filter built from a list or tuple of names (in
    normal mode, the default) yields [item'] if and only if no listed tag's
    score is below 1e-6, and yields nothing otherwise.  A filter built from a
    mapping with [reversed=True] yields nothing if and only if some required
    tag's score is above its minimum, and in normal mode if and only if some
    required tag's score is below its minimum; otherwise it yields
    [item']. *)
Theorem C2_filter_semantics item h method kwargs :
  filterable h item = true →
  ∃ item' h',
    TaggingAction_process tagging_backend (mkTaggingAction method false kwargs)
      item h = Ok (item', h')
    ∧ (∀ names self,
         TagFilterAction_init (PyList names) method false kwargs = Ok self
         ∨ TagFilterAction_init (PyTuple names) method false kwargs = Ok self →
         ∃ out,
           TagFilterAction_iter tagging_backend self item h = Ok (out, h')
           ∧ (out = [item'] ∨ out = [])
           ∧ (out = [item'] ↔
              ∀ tag, tag ∈ names →
                     PrimFloat.ltb (score_in h' item' tag) 1e-6 = false))
    ∧ (∀ required self,
         TagFilterAction_init (PyDict required) method true kwargs = Ok self →
         ∃ out,
           TagFilterAction_iter tagging_backend self item h = Ok (out, h')
           ∧ (out = [item'] ∨ out = [])
           ∧ (out = [] ↔
              ∃ tag min_score,
                (tag, min_score) ∈ required
                ∧ PrimFloat.ltb min_score (score_in h' item' tag) = true))
    ∧ (∀ required self,
         TagFilterAction_init (PyDict required) method false kwargs = Ok self →
         ∃ out,
           TagFilterAction_iter tagging_backend self item h = Ok (out, h')
           ∧ (out = [item'] ∨ out = [])
           ∧ (out = [] ↔
              ∃ tag min_score,
                (tag, min_score) ∈ required
                ∧ PrimFloat.ltb (score_in h' item' tag) min_score = true)).
Proof.
  intros Hf.
  destruct (TagFilterAction_iter_run
              (mkTagFilterAction [] (mkTaggingAction method false kwargs) false)
              item h Hf) as (item' & h' & Hrun & _).
  simpl in Hrun. exists item', h'. split; [done|].
  assert (∀ self, tf_tagger self = mkTaggingAction method false kwargs →
          TagFilterAction_iter tagging_backend self item h
          = Ok (if all_valid (tf_reversed self) (tf_tags self) (tags_of h' item')
                then [item'] else [], h')) as Hiter.
  { intros self Htagger.
    destruct (TagFilterAction_iter_run self item h Hf) as (i2 & h2 & Hrun2 & Hit).
    rewrite Htagger, Hrun in Hrun2. by injection Hrun2 as <- <-. }
  split; [|split].
  - intros names self Hinit.
    assert (self = mkTagFilterAction (required_of_names names)
                     (mkTaggingAction method false kwargs) false) as ->.
    { destruct Hinit as [Hinit|Hinit]; simpl in Hinit; congruence. }
    eexists. split; [by apply Hiter|]. simpl.
    destruct (all_valid false _ _) eqn:Hv.
    + split; [by left|]. split; [|done]. intros _ tag Htag.
      apply not_true_is_false. intros Hlt.
      assert (all_valid false (required_of_names names) (tags_of h' item') = false)
        as Hv'; [|congruence].
      apply all_valid_false. exists tag, score_present.
      split; [by apply required_of_names_entries|done].
    + split; [by right|]. split; [done|]. intros Hall. exfalso.
      apply all_valid_false in Hv as (tag & min_score & Hin & Hlt).
      apply required_of_names_entries in Hin as [Hin ->].
      specialize (Hall tag Hin). unfold score_in in Hall.
      unfold score_lt, score_present in Hlt. congruence.
  - intros required self [= <-].
    eexists. split; [by apply Hiter|]. simpl.
    destruct (all_valid true _ _) eqn:Hv.
    + split; [by left|]. split; [done|].
      intros (tag & min_score & Hin & Hlt). exfalso.
      assert (all_valid true required (tags_of h' item') = false) as Hv';
        [|congruence].
      apply all_valid_false. exists tag, min_score. by split.
    + split; [by right|]. split; [|done]. intros _.
      apply all_valid_false in Hv as (tag & min_score & Hin & Hlt).
      exists tag, min_score. by split.
  - intros required self [= <-].
    eexists. split; [by apply Hiter|]. simpl.
    destruct (all_valid false _ _) eqn:Hv.
    + split; [by left|]. split; [done|].
      intros (tag & min_score & Hin & Hlt). exfalso.
      assert (all_valid false required (tags_of h' item') = false) as Hv';
        [|congruence].
      apply all_valid_false. exists tag, min_score. by split.
    + split; [by right|]. split; [|done]. intros _.
      apply all_valid_false in Hv as (tag & min_score & Hin & Hlt).
      exists tag, min_score. by split.
Qed.

End action_facts.

(** ** The source composition algebra *)

Section source_facts.
Context {Item : Type}.
Implicit Types (A B : Source Item) (tl : list (bool * Item)) (os : list bool).

(** C4.  When [A] produces [la] and [B] produces [lb], the chain [A + B]
    produces [la ++ lb]: its length is the sum of the two lengths, its first
    [length la] items are [la] and the rest are [lb]; the chain [B + A]
    produces [lb ++ la], with [B]'s block first.  The chain produces nothing
    but such sequences. *)
Theorem C4_chain_order A B (la lb : list Item) :
  produces A la → produces B lb →
  (produces (Chain A B) (la ++ lb)
   ∧ length (la ++ lb) = length la + length lb
   ∧ take (length la) (la ++ lb) = la
   ∧ drop (length la) (la ++ lb) = lb)
  ∧ (produces (Chain B A) (lb ++ la)
     ∧ length (lb ++ la) = length lb + length la
     ∧ take (length lb) (lb ++ la) = lb
     ∧ drop (length lb) (lb ++ la) = la)
  ∧ (∀ l, produces (Chain A B) l →
          ∃ la' lb', produces A la' ∧ produces B lb' ∧ l = la' ++ lb').
Proof.
  intros HA HB. repeat split.
  - by constructor.
  - apply length_app.
  - apply take_app_length.
  - apply drop_app_length.
  - by constructor.
  - apply length_app.
  - apply take_app_length.
  - apply drop_app_length.
  - intros l Hl. inversion Hl; subst. eauto.
Qed.

Lemma items_of_length o tl :
  length (items_of o tl) = length (List.filter (Bool.eqb o) (map fst tl)).
Proof.
  unfold items_of. rewrite length_map.
  induction tl as [|[b x] tl IH]; simpl; [done|].
  destruct (Bool.eqb o b); simpl; by rewrite IH.
Qed.

Lemma origins_counted os :
  length (List.filter (Bool.eqb true) os) + length (List.filter (Bool.eqb false) os)
  = length os.
Proof. induction os as [|[] os IH]; simpl; lia. Qed.

Lemma filter_take_drop o os n :
  length (List.filter (Bool.eqb o) os)
  = length (List.filter (Bool.eqb o) (take n os))
    + length (List.filter (Bool.eqb o) (drop n os)).
Proof.
  rewrite <- (take_drop n os) at 1. by rewrite List.filter_app, length_app.
Qed.

Lemma forallb_all o os :
  forallb (Bool.eqb o) os = true →
  length (List.filter (Bool.eqb o) os) = length os.
Proof.
  induction os as [|b os IH]; simpl; [done|].
  destruct (Bool.eqb o b); simpl; [|done]. intros H. by rewrite IH.
Qed.

Lemma forallb_none o os :
  length (List.filter (Bool.eqb o) os) = 0 →
  forallb (Bool.eqb (negb o)) os = true.
Proof.
  induction os as [|b os IH]; simpl; [done|].
  destruct o, b; simpl; try done; apply IH.
Qed.

(** A fair sequence of origins with 20 of each is mixed in its first 20 and
    in its last 20. *)
Lemma fair_run_mixed A B tl :
  produces A (items_of true tl) → produces B (items_of false tl) →
  fair (map fst tl) = true →
  length (items_of true tl) = 20 → length (items_of false tl) = 20 →
  produces (Merge A B) (map snd tl)
  ∧ length (map snd tl) = 40
  ∧ forallb (Bool.eqb true) (take 20 (map fst tl)) = false
  ∧ forallb (Bool.eqb false) (take 20 (map fst tl)) = false
  ∧ forallb (Bool.eqb true) (drop 20 (map fst tl)) = false
  ∧ forallb (Bool.eqb false) (drop 20 (map fst tl)) = false.
Proof.
  intros HA HB Hfair Hna Hnb.
  pose proof (produces_merge A B tl HA HB Hfair) as Hrun.
  rewrite items_of_length in Hna, Hnb.
  set (os := map fst tl) in *.
  assert (length os = 40) as Hlen by (rewrite <- origins_counted; lia).
  unfold fair in Hfair. apply andb_prop in Hfair as [Ha Hb].
  unfold exhausted_before_other_begins in Ha, Hb.
  rewrite Hna, Hlen in Ha. rewrite Hnb, Hlen in Hb. simpl in Ha, Hb.
  apply negb_true_iff in Ha, Hb.
  assert (length (take 20 os) = 20) as Htake by (rewrite length_take; lia).
  assert (length (drop 20 os) = 20) as Hdrop by (rewrite length_drop; lia).
  split; [done|].
  split; [rewrite length_map; unfold os in Hlen; by rewrite length_map in Hlen|].
  split; [done|]. split; [done|]. split.
  - apply not_true_is_false. intros Hall%forallb_all.
    pose proof (filter_take_drop true os 20) as Hsplit.
    rewrite Hna, Hall, Hdrop in Hsplit.
    assert (length (List.filter (Bool.eqb true) (take 20 os)) = 0) as H0 by lia.
    apply forallb_none in H0. simpl in H0. congruence.
  - apply not_true_is_false. intros Hall%forallb_all.
    pose proof (filter_take_drop false os 20) as Hsplit.
    rewrite Hnb, Hall, Hdrop in Hsplit.
    assert (length (List.filter (Bool.eqb false) (take 20 os)) = 0) as H0 by lia.
    apply forallb_none in H0. simpl in H0. congruence.
Qed.


Lemma origins_identified (from_A : Item → bool) tl :
  forallb from_A (items_of true tl) = true →
  forallb (λ x, negb (from_A x)) (items_of false tl) = true →
  map from_A (map snd tl) = map fst tl.
Proof.
  unfold items_of. induction tl as [|[o x] tl IH]; simpl; [done|].
  destruct o; simpl.
  - intros [Hx Ht]%andb_prop Hf. by rewrite Hx, IH.
  - intros Ht [Hx Hf]%andb_prop. apply negb_true_iff in Hx. by rewrite Hx, IH.
Qed.

Lemma forallb_from_A (from_A : Item → bool) (l : list Item) :
  forallb from_A l = forallb (Bool.eqb true) (map from_A l)
  ∧ forallb (λ x, negb (from_A x)) l = forallb (Bool.eqb false) (map from_A l).
Proof.
  induction l as [|x l [IH1 IH2]]; simpl; [done|].
  rewrite IH1, IH2. by destruct (from_A x).
Qed.

(** C5.  Let the items of [A] and of [B] be told apart by [from_A], and let
    [A] and [B] produce 20 items each.  Every sequence the merge [A | B]
    produces has 40 items; its first 20 are neither all from [A] nor all
    from [B], and neither are its last 20. *)
Theorem C5_merge_fairness A B (from_A : Item → bool) (l : list Item) :
  (∀ la, produces A la → length la = 20 ∧ forallb from_A la = true) →
  (∀ lb, produces B lb →
         length lb = 20 ∧ forallb (λ x, negb (from_A x)) lb = true) →
  produces (Merge A B) l →
  length l = 40
  ∧ forallb from_A (take 20 l) = false
  ∧ forallb (λ x, negb (from_A x)) (take 20 l) = false
  ∧ forallb from_A (drop 20 l) = false
  ∧ forallb (λ x, negb (from_A x)) (drop 20 l) = false.
Proof.
  intros HA HB Hrun. inversion Hrun as [| |a b tl Hla Hlb Hfair]; subst.
  destruct (HA _ Hla) as [Hna HfromA]. destruct (HB _ Hlb) as [Hnb HfromB].
  destruct (fair_run_mixed A B tl Hla Hlb Hfair Hna Hnb)
    as (_ & Hlen & H1 & H2 & H3 & H4).
  pose proof (origins_identified from_A tl HfromA HfromB) as Hid.
  split; [done|].
  destruct (forallb_from_A from_A (take 20 (map snd tl))) as [-> ->].
  destruct (forallb_from_A from_A (drop 20 (map snd tl))) as [-> ->].
  rewrite <- !firstn_map, <- !skipn_map, Hid. done.
Qed.

End source_facts.

(** * More of the module

    ** Dictionaries, comprehensions and merges *)

Lemma dict_get_app {V} k (d1 d2 : list (string * V)) :
  Dict.get k (d1 ++ d2)
  = match Dict.get k d1 with Some v => Some v | None => Dict.get k d2 end.
Proof.
  induction d1 as [|[k' v'] r IH]; simpl; [done|].
  by destruct (String.eqb k k').
Qed.

Lemma dict_set_new {V} k (v : V) d :
  Dict.get k d = None → Dict.set k v d = d ++ [(k, v)].
Proof.
  induction d as [|[k' v'] r IH]; simpl; [done|].
  destruct (String.eqb k k'); [done|]. intros H. by rewrite IH.
Qed.

Lemma dict_mem_get {V} k (d : list (string * V)) :
  Dict.mem k d = false ↔ Dict.get k d = None.
Proof. unfold Dict.mem. by destruct (Dict.get k d). Qed.

Lemma dict_get_filter {V} (keep : string → bool) k (d : list (string * V)) :
  Dict.get k (List.filter (λ '(tag, _), keep tag) d)
  = if keep k then Dict.get k d else None.
Proof.
  induction d as [|[k' v'] r IH]; simpl; [by destruct (keep k)|].
  destruct (String.eqb_spec k k') as [->|Hne].
  - destruct (keep k') eqn:E; simpl; [by rewrite String.eqb_refl|].
    rewrite IH. by rewrite ?E.
  - destruct (keep k'); simpl; [|done].
    by apply String.eqb_neq in Hne as ->.
Qed.

(** A comprehension gives each key the score written last under it. *)
Lemma comprehension_fold (key : string → string) (keep : string → bool)
    (d acc : list (string * score)) k :
  Dict.get k
    (fold_left (λ acc '(tag, x),
                  if keep tag then Dict.set (key tag) x acc else acc) d acc)
  = match last_written key keep d k with
    | Some v => Some v
    | None => Dict.get k acc
    end.
Proof.
  unfold last_written, written. revert acc.
  induction d as [|[tag x] r IH]; intros acc; simpl; [done|].
  rewrite IH. destruct (keep tag); simpl; [|done].
  rewrite dict_get_app. simpl.
  destruct (Dict.get k (rev _)); [done|].
  destruct (String.eqb_spec k (key tag)) as [->|Hne].
  - apply dict_get_set_eq.
  - by apply dict_get_set_ne, not_eq_sym.
Qed.

Lemma comprehension_get (key : string → string) (keep : string → bool)
    (d : list (string * score)) k :
  Dict.get k (comprehension key keep d) = last_written key keep d k.
Proof.
  unfold comprehension. rewrite comprehension_fold.
  by destruct (last_written key keep d k).
Qed.

(** On a dictionary, a comprehension that keeps the names is a filter. *)
Lemma comprehension_filter_fold (keep : string → bool)
    (d acc : list (string * score)) :
  distinct_keys d = true →
  (∀ k, Dict.mem k d = true → Dict.get k acc = None) →
  fold_left (λ acc '(tag, x), if keep tag then Dict.set (id tag) x acc else acc)
    d acc
  = acc ++ List.filter (λ '(tag, _), keep tag) d.
Proof.
  revert acc. induction d as [|[tag x] r IH]; intros acc Hd Hacc; simpl.
  - by rewrite app_nil_r.
  - simpl in Hd. apply andb_prop in Hd as [Hnew%negb_true_iff Hd].
    assert (Dict.get tag acc = None) as Htag.
    { apply Hacc. unfold Dict.mem. simpl. by rewrite String.eqb_refl. }
    assert (∀ k, Dict.mem k r = true → Dict.get k acc = None) as Hacc'.
    { intros k Hk. apply Hacc. unfold Dict.mem in *. simpl.
      by destruct (String.eqb k tag). }
    destruct (keep tag).
    + rewrite IH; [|done|].
      * unfold id. rewrite dict_set_new by done. by rewrite <- app_assoc.
      * intros k Hk. unfold id. rewrite dict_get_set_ne; [by apply Hacc'|].
        intros ->. congruence.
    + by apply IH.
Qed.

Lemma comprehension_filter (keep : string → bool) (d : list (string * score)) :
  distinct_keys d = true →
  comprehension id keep d = List.filter (λ '(tag, _), keep tag) d.
Proof.
  intros Hd. unfold comprehension. by rewrite comprehension_filter_fold.
Qed.

Lemma distinct_keys_filter {V} (keep : string → bool) (d : list (string * V)) :
  distinct_keys d = true →
  distinct_keys (List.filter (λ '(tag, _), keep tag) d) = true.
Proof.
  induction d as [|[k v] r IH]; simpl; [done|].
  intros [Hnew%negb_true_iff Hd]%andb_prop.
  destruct (keep k) eqn:E; simpl; [|by apply IH].
  rewrite IH by done. rewrite andb_true_r. apply negb_true_iff.
  apply dict_mem_get. apply dict_mem_get in Hnew.
  rewrite (dict_get_filter keep k r). by rewrite E.
Qed.

(** [{**a, **b}]: the value of [b] where [b] has the key, else that of
    [a]. *)
Lemma dict_merge_get {V} (a b : list (string * V)) k :
  distinct_keys b = true →
  Dict.get k (dict_merge a b)
  = match Dict.get k b with Some v => Some v | None => Dict.get k a end.
Proof.
  unfold dict_merge. revert a.
  induction b as [|[k' v'] r IH]; intros a Hb; simpl; [done|].
  simpl in Hb. apply andb_prop in Hb as [Hnew%negb_true_iff Hb].
  rewrite IH by done. destruct (String.eqb_spec k k') as [->|Hne].
  - apply dict_mem_get in Hnew. rewrite Hnew. apply dict_get_set_eq.
  - destruct (Dict.get k r); [done|]. by apply dict_get_set_ne, not_eq_sym.
Qed.

Lemma filter_drop_twice {V} (first second : list string) (d : list (string * V)) :
  List.filter (λ '(tag, _), negb (in_set tag second))
    (List.filter (λ '(tag, _), negb (in_set tag first)) d)
  = List.filter (λ '(tag, _), negb (in_set tag (first ++ second))) d.
Proof.
  induction d as [|[tag x] r IH]; simpl; [done|].
  assert (in_set tag (first ++ second) = in_set tag first || in_set tag second)
    as -> by (unfold in_set; apply existsb_app).
  destruct (in_set tag first); simpl; [exact IH|].
  destruct (in_set tag second); simpl; by rewrite IH.
Qed.

Lemma filter_all {V} (d : list (string * V)) :
  List.filter (λ '(_, _), true) d = d.
Proof. induction d as [|[k v] r IH]; simpl; by rewrite ?IH. Qed.

Lemma last_written_apart key d t :
  distinct_keys d = true → rewritten_apart key d t = true →
  last_written key (λ _, true) d (key t) = Dict.get t d.
Proof.
  unfold last_written, written. rewrite filter_all.
  induction d as [|[k0 v0] r IH]; simpl; [done|].
  intros [Hnew%negb_true_iff Hd]%andb_prop [Hk Hr]%andb_prop.
  rewrite dict_get_app, IH by done. simpl.
  destruct (String.eqb_spec t k0) as [->|Hne].
  - apply dict_mem_get in Hnew. by rewrite Hnew, String.eqb_refl.
  - destruct (Dict.get t r); [done|].
    destruct (String.eqb_spec (key t) (key k0)) as [Heq|]; [|done].
    rewrite Heq, String.eqb_refl in Hk. simpl in Hk.
    apply String.eqb_eq in Hk. congruence.
Qed.

Lemma dict_mem_keys {V} k (d : list (string * V)) :
  Dict.mem k d = true ↔ k ∈ map fst d.
Proof.
  unfold Dict.mem. induction d as [|[k' v'] r IH]; simpl.
  - split; [done|]. by intros []%elem_of_nil.
  - destruct (String.eqb_spec k k') as [->|Hne].
    + split; [left|done].
    + rewrite IH. split; [by right|].
      by intros [?|?]%elem_of_cons.
Qed.

Lemma in_set_subset (xs ys : list string) x :
  forallb (λ y, in_set y ys) xs = true → x ∈ xs → x ∈ ys.
Proof.
  intros Hall Hx. apply in_set_true.
  rewrite forallb_forall in Hall. apply Hall. by apply list_elem_of_In.
Qed.

(** ** The effect of the danbooru loops on one key *)

Lemma meta_loop_falsy whitelist k xs d :
  in_set k whitelist = false → option_truthy (Dict.get k d) = false →
  Dict.get k (fold_left (meta_step whitelist) xs d) = Dict.get k d.
Proof.
  intros Hw. revert d. induction xs as [|x xs IH]; intros d Hk; [done|].
  simpl. destruct (decide (k = x)) as [->|Hne].
  - assert (meta_step whitelist d x = d) as ->; [|by apply IH].
    unfold meta_step. by rewrite Hw, Hk.
  - rewrite IH; rewrite meta_step_other by done; done.
Qed.

Lemma apply_then_effect e1 e2 o :
  apply_effect (then_effect e1 e2) o = apply_effect e2 (apply_effect e1 o).
Proof.
  destruct e1 as [|o1|], e2 as [|o2|]; simpl; try done.
  destruct (option_truthy o) eqn:E; [done|]. by rewrite E.
Qed.

Lemma apply_effect_twice e o :
  apply_effect e (apply_effect e o) = apply_effect e o.
Proof.
  destruct e as [|o1|]; simpl; try done.
  destruct (option_truthy o) eqn:E; [done|]. by rewrite E.
Qed.

(** A loop whose steps each have an effect on the key has one. *)
Lemma loop_effect {A} (step : list (string * score) → A → list (string * score))
    k (xs : list A) :
  (∀ x, ∃ e, ∀ d, Dict.get k (step d x) = apply_effect e (Dict.get k d)) →
  ∃ e, ∀ d, Dict.get k (fold_left step xs d) = apply_effect e (Dict.get k d).
Proof.
  intros Hstep. induction xs as [|x xs [e2 IH]]; simpl.
  - by exists Untouched.
  - destruct (Hstep x) as [e1 H1]. exists (then_effect e1 e2).
    intros d. by rewrite IH, H1, apply_then_effect.
Qed.

Lemma meta_step_effect whitelist k x :
  ∃ e, ∀ d, Dict.get k (meta_step whitelist d x) = apply_effect e (Dict.get k d).
Proof.
  destruct (decide (k = x)) as [->|Hne].
  - destruct (in_set x whitelist) eqn:Hw.
    + exists (Fixed (Some score_zero)). intros d. unfold meta_step.
      rewrite Hw. apply dict_get_set_eq.
    + exists DroppedIfTruthy. intros d. unfold meta_step. rewrite Hw. simpl.
      destruct (option_truthy (Dict.get x d)); [apply dict_get_del_eq|done].
  - exists Untouched. intros d. by apply meta_step_other.
Qed.

Lemma set_step_effect v k x :
  ∃ e, ∀ d, Dict.get k (Dict.set x v d) = apply_effect e (Dict.get k d).
Proof.
  destruct (decide (k = x)) as [->|Hne].
  - exists (Fixed (Some v)). intros d. apply dict_get_set_eq.
  - exists Untouched. intros d. by apply dict_get_set_ne, not_eq_sym.
Qed.

Lemma artist_step_effect k a :
  ∃ e, ∀ d, Dict.get k (artist_step d a) = apply_effect e (Dict.get k d).
Proof.
  destruct (decide (k = a)) as [->|Hne].
  - exists (Fixed None). intros d. apply artist_step_self.
  - destruct (decide (k = by_artist a)) as [->|Hne'].
    + exists (Fixed (Some score_artist)). intros d. apply artist_step_prefixed.
    + exists Untouched. intros d. by apply artist_step_other.
Qed.

Lemma danbooru_tags_effect whitelist danbooru k :
  ∃ e, ∀ d,
    Dict.get k (danbooru_tags whitelist danbooru d) = apply_effect e (Dict.get k d).
Proof.
  unfold danbooru_tags. destruct danbooru as [|p r]; [by exists Untouched|].
  set (dan := p :: r).
  destruct (loop_effect (meta_step whitelist) k (meta_tokens dan)
              (meta_step_effect whitelist k)) as [e1 H1].
  destruct (loop_effect character_step k (character_tokens dan)
              (set_step_effect score_character k)) as [e2 H2].
  destruct (loop_effect copyright_step k (copyright_tokens dan)
              (set_step_effect score_copyright k)) as [e3 H3].
  destruct (loop_effect artist_step k (artist_tokens dan)
              (artist_step_effect k)) as [e4 H4].
  exists (then_effect (then_effect (then_effect e1 e2) e3) e4).
  intros d. by rewrite H4, H3, H2, H1, !apply_then_effect.
Qed.

Lemma danbooru_tags_twice whitelist danbooru d k :
  Dict.get k (danbooru_tags whitelist danbooru (danbooru_tags whitelist danbooru d))
  = Dict.get k (danbooru_tags whitelist danbooru d).
Proof.
  destruct (danbooru_tags_effect whitelist danbooru k) as [e He].
  by rewrite !He, apply_effect_twice.
Qed.

Lemma rating_tags_other rating x d k :
  k ≠ "nsfw" → k ≠ "explicit" →
  Dict.get k (rating_tags rating x d) = Dict.get k d.
Proof.
  intros H1 H2. unfold rating_tags.
  destruct (String.eqb rating "r18"), (String.eqb rating "r15");
    rewrite ?dict_get_set_ne by (by apply not_eq_sym); done.
Qed.

(** ** The tokens of [split] *)

Lemma chars_append s1 s2 : chars (s1 +:+ s2) = chars s1 ++ chars s2.
Proof.
  induction s1 as [|c s1 IH]; [done|].
  change (String c s1 +:+ s2) with (String c (s1 +:+ s2)). simpl. by rewrite IH.
Qed.

Lemma split_from_tokens s cur t :
  forallb (λ c, negb (is_space c)) (chars cur) = true →
  t ∈ split_from cur s →
  t ≠ "" ∧ forallb (λ c, negb (is_space c)) (chars t) = true.
Proof.
  revert cur. induction s as [|c s IH]; intros cur Hcur Ht; simpl in Ht.
  - destruct cur; [by apply elem_of_nil in Ht|].
    apply list_elem_of_singleton in Ht as ->. done.
  - destruct (is_space c) eqn:Hc.
    + destruct cur as [|c' cur'].
      * by apply (IH "").
      * apply elem_of_cons in Ht as [->|Ht]; [done|]. by apply (IH "").
    + apply (IH (cur +:+ String c "")); [|done].
      rewrite chars_append, forallb_app. simpl. by rewrite Hcur, Hc.
Qed.

(** ** The actions once more *)

Section more_action_facts.
Context {Image Kwargs : Type}.
Variable tagging_backend :
  TaggingMethodTyping → Image → Kwargs → list (string * score).
Variable drop_overlap_tags : list (string * score) → list (string * score).
Variable is_blacklisted : string → bool.
Variable remove_underline : string → string.
Variable anime_rating : Image → string * score.
Implicit Types (h : heap) (item : ImageItem Image).

Lemma tagged_danbooru h item dropped d :
  danbooru_of (tagged h item dropped d) (tagged_item h item) = danbooru_of h item.
Proof.
  unfold danbooru_of, danbooru_content. by rewrite tagged_other_keys.
Qed.

Lemma tagged_wf h item dropped d :
  wf_item h item = true →
  wf_item (tagged h item dropped d) (tagged_item h item) = true.
Proof.
  intros (_ & _ & Hd)%wf_item_meta. unfold wf_item. simpl.
  rewrite lookup_last. apply andb_true_intro. split.
  - unfold tags_slot_ok. rewrite dict_get_set_eq. simpl.
    rewrite app_assoc, <- length_app. by rewrite lookup_last.
  - unfold danbooru_slot_ok in *. by rewrite dict_get_set_ne.
Qed.

Lemma tagged_has_tags h item dropped d :
  has_tags (tagged h item dropped d) (tagged_item h item) = true.
Proof.
  unfold has_tags. simpl. rewrite lookup_last. unfold Dict.mem.
  by rewrite dict_get_set_eq.
Qed.

Lemma tagged_filterable h item dropped d :
  filterable (tagged h item dropped d) (tagged_item h item) = true.
Proof.
  unfold filterable. simpl. rewrite lookup_last, dict_get_set_eq. simpl.
  rewrite app_assoc, <- length_app. by rewrite lookup_last.
Qed.

(** Every tag-mutating process action ends in [tagged]. *)
Lemma process_run (action : TagProcessAction) item h :
  wf_item h item = true →
  ∃ dropped d,
    process drop_overlap_tags is_blacklisted remove_underline anime_rating
      action item h = Ok (tagged_item h item, tagged h item dropped d).
Proof.
  intros Hwf. destruct action as [|self| |self| |]; simpl; eexists _, _.
  - by apply TagOverlapDropAction_run.
  - by apply DanbooruTagProcessAction_run.
  - by apply TagNSFWOrExplicitAction_run.
  - by apply rebuild_tags_run.
  - by apply rebuild_tags_run.
  - by apply rebuild_tags_run.
Qed.

(** *** TaggingAction *)

(** X1.  When the item has no ['tags'] key, or [force] is set, [process] returns
    a new item whose tags are the backend's result on the image and the
    keyword arguments, and keeps the frame: every other metadata key is as
    before and no dictionary of the store is changed. *)
Theorem tagging_computes (self : TaggingAction Kwargs) item h :
  wf_item h item = true →
  has_tags h item && negb (ta_force self) = false →
  ∃ item' h',
    TaggingAction_process tagging_backend self item h = Ok (item', h')
    ∧ tags_of h' item'
      = tagging_backend (ta_method self) (image item) (ta_kwargs self)
    ∧ frame_kept h item item' h'.
Proof.
  intros Hwf Hc. pose proof (wf_item_meta _ _ Hwf) as (Hm & _).
  unfold has_tags in Hc. rewrite Hm in Hc.
  eexists _, _. split; [by eapply TaggingAction_run_fresh|].
  split; [apply tagged_tags|by apply tagged_frame].
Qed.

(** X2.  With [force=False], applying [process] to its own result changes
    nothing: two applications return what one returns, item and store. *)
Theorem tagging_idempotent (self : TaggingAction Kwargs) item h m :
  meta_cells h !! meta item = Some m → ta_force self = false →
  ∃ item' h',
    TaggingAction_process tagging_backend self item h = Ok (item', h')
    ∧ (item1 <- TaggingAction_process tagging_backend self item ;;
       TaggingAction_process tagging_backend self item1) h = Ok (item', h').
Proof.
  intros Hm Hforce. destruct (Dict.mem "tags" m) eqn:Hmem.
  - pose proof (TaggingAction_run_cached tagging_backend self item h m Hm Hmem Hforce)
      as Hrun.
    exists item, h. split; [done|]. by rewrite (bind_ok _ _ _ _ _ Hrun).
  - assert (Dict.mem "tags" m && negb (ta_force self) = false) as Hc
      by (by rewrite Hmem).
    pose proof (TaggingAction_run_fresh tagging_backend self item h m Hm Hc) as Hrun.
    eexists _, _. split; [done|]. rewrite (bind_ok _ _ _ _ _ Hrun).
    eapply TaggingAction_run_cached; [| |exact Hforce].
    + simpl. apply lookup_last.
    + unfold Dict.mem. by rewrite dict_get_set_eq.
Qed.

(** X3.  After any tag-mutating process action the item is again one the store
    holds, with a ['tags'] key that refers to a tags dictionary; a
    [TaggingAction] without [force] then returns it as it is. *)
Theorem process_then_tagging (action : TagProcessAction)
    (tagger : TaggingAction Kwargs) item h :
  wf_item h item = true → ta_force tagger = false →
  ∃ item' h',
    process drop_overlap_tags is_blacklisted remove_underline anime_rating
      action item h = Ok (item', h')
    ∧ wf_item h' item' = true
    ∧ filterable h' item' = true
    ∧ TaggingAction_process tagging_backend tagger item' h' = Ok (item', h').
Proof.
  intros Hwf Hforce. destruct (process_run action item h Hwf) as (dropped & d & Hrun).
  eexists _, _. split; [exact Hrun|].
  split; [by apply tagged_wf|]. split; [apply tagged_filterable|].
  eapply TaggingAction_run_cached; [| |exact Hforce].
  - simpl. apply lookup_last.
  - unfold Dict.mem. by rewrite dict_get_set_eq.
Qed.

(** X4.  Two tag-mutating process actions in sequence return, with the input's
    image, every metadata key but ['tags'] as in the input, and every
    dictionary of the input store unchanged. *)
Theorem process_twice_frame (first second : TagProcessAction) item h :
  wf_item h item = true →
  ∃ item2 h2,
    (item1 <- process drop_overlap_tags is_blacklisted remove_underline
                anime_rating first item ;;
     process drop_overlap_tags is_blacklisted remove_underline anime_rating
       second item1) h = Ok (item2, h2)
    ∧ image item2 = image item
    ∧ (∀ k, k ≠ "tags" →
            Dict.get k (meta_of h2 item2) = Dict.get k (meta_of h item))
    ∧ extends h h2
    ∧ meta_of h2 item = meta_of h item
    ∧ tags_of h2 item = tags_of h item.
Proof.
  intros Hwf.
  destruct (process_run first item h Hwf) as (dr1 & d1 & Hrun1).
  pose proof (tagged_wf h item dr1 d1 Hwf) as Hwf1.
  destruct (process_run second _ _ Hwf1) as (dr2 & d2 & Hrun2).
  eexists _, _. split; [by rewrite (bind_ok _ _ _ _ _ Hrun1)|].
  pose proof (tagged_extends h item dr1 d1) as [Ht1 Hm1].
  pose proof (tagged_extends (tagged h item dr1 d1) (tagged_item h item) dr2 d2)
    as [Ht2 Hm2].
  assert (extends h (tagged (tagged h item dr1 d1) (tagged_item h item) dr2 d2))
    as Hext by (split; auto).
  split; [done|]. split; [|split; [done|split]].
  - intros k Hk. by rewrite !tagged_other_keys.
  - by apply extends_meta_of.
  - by apply extends_tags_of.
Qed.

(** *** TagFilterAction *)

Lemma init_tagger tags method reversed (kwargs : Kwargs) self :
  TagFilterAction_init tags method reversed kwargs = Ok self →
  tf_tagger self = mkTaggingAction method false kwargs
  ∧ tf_reversed self = reversed.
Proof. destruct tags; simpl; intros [= <-]; done. Qed.

Lemma iter_of_tagged (self : TagFilterAction Kwargs) item h item' h' :
  filterable h item = true →
  TaggingAction_process tagging_backend (tf_tagger self) item h = Ok (item', h') →
  TagFilterAction_iter tagging_backend self item h
  = Ok (if all_valid (tf_reversed self) (tf_tags self) (tags_of h' item')
        then [item'] else [], h').
Proof.
  intros Hf Hrun.
  destruct (TagFilterAction_iter_run tagging_backend self item h Hf)
    as (i2 & h2 & Hrun2 & Hit).
  rewrite Hrun in Hrun2. by injection Hrun2 as <- <-.
Qed.

(** X5.  A constructed filter, on an item that already has its tags, changes
    nothing in the store and yields the item itself or nothing. *)
Theorem filter_passes_tagged_item tags method reversed (kwargs : Kwargs) self
    item h :
  TagFilterAction_init tags method reversed kwargs = Ok self →
  filterable h item = true → has_tags h item = true →
  ∃ out,
    TagFilterAction_iter tagging_backend self item h = Ok (out, h)
    ∧ (out = [item] ∨ out = []).
Proof.
  intros [Htagger _]%init_tagger Hf Ht. unfold has_tags in Ht.
  destruct (meta_cells h !! meta item) as [m|] eqn:Hm; [|done].
  assert (TaggingAction_process tagging_backend (tf_tagger self) item h
          = Ok (item, h)) as Hrun.
  { rewrite Htagger. by eapply TaggingAction_run_cached. }
  rewrite (iter_of_tagged self item h item h Hf Hrun).
  destruct (all_valid _ _ _); eauto.
Qed.

(** X6.  A filter never changes a dictionary of the store it is given, and every
    item it yields has the image of the input. *)
Theorem filter_frame (self : TagFilterAction Kwargs) item h :
  filterable h item = true →
  ∃ out h',
    TagFilterAction_iter tagging_backend self item h = Ok (out, h')
    ∧ extends h h'
    ∧ meta_of h' item = meta_of h item
    ∧ (∀ item', item' ∈ out → image item' = image item).
Proof.
  intros Hf.
  assert (∃ m, meta_cells h !! meta item = Some m) as [m Hm].
  { unfold filterable in Hf. destruct (meta_cells h !! meta item); eauto. done. }
  assert (∃ item' h',
    TaggingAction_process tagging_backend (tf_tagger self) item h = Ok (item', h')
    ∧ extends h h' ∧ image item' = image item) as (item' & h' & Hrun & Hext & Himg).
  { destruct (Dict.mem "tags" m && negb (ta_force (tf_tagger self))) eqn:Hc.
    - apply andb_prop in Hc as [Hmem Hforce%negb_true_iff].
      exists item, h. split; [by eapply TaggingAction_run_cached|].
      split; [by split|done].
    - eexists _, _. split; [by eapply TaggingAction_run_fresh|].
      split; [apply tagged_extends|done]. }
  eexists _, h'. split; [by apply iter_of_tagged|].
  split; [done|]. split.
  - destruct Hext as [_ Hmeta]. unfold meta_of. by rewrite (Hmeta _ _ Hm), Hm.
  - intros i. destruct (all_valid _ _ _).
    + by intros ->%list_elem_of_singleton.
    + by intros []%elem_of_nil.
Qed.

(** X7.  A filter with nothing required, built from an empty list, tuple or
    mapping, yields the tagged item in either mode, for every item the store
    holds and whatever its ['tags'] entry is: the loop does not run, so the
    value under ['tags'] is never used. *)
Theorem filter_nothing_required tags method reversed (kwargs : Kwargs) self
    item h m :
  tags = PyList [] ∨ tags = PyTuple [] ∨ tags = PyDict [] →
  TagFilterAction_init tags method reversed kwargs = Ok self →
  meta_cells h !! meta item = Some m →
  ∃ item' h',
    TaggingAction_process tagging_backend (mkTaggingAction method false kwargs)
      item h = Ok (item', h')
    ∧ TagFilterAction_iter tagging_backend self item h = Ok ([item'], h').
Proof.
  intros Htags Hinit Hm.
  assert (tf_tags self = [] ∧ tf_tagger self = mkTaggingAction method false kwargs)
    as [Hreq Htagger].
  { destruct Htags as [-> | [-> | ->]]; simpl in Hinit; by injection Hinit as <-. }
  unfold TagFilterAction_iter, TaggingAction_call. rewrite Htagger, Hreq.
  destruct (Dict.mem "tags" m) eqn:Hmem.
  - pose proof (TaggingAction_run_cached tagging_backend
                  (mkTaggingAction method false kwargs) item h m Hm Hmem eq_refl)
      as Hrun.
    exists item, h. split; [done|]. rewrite (bind_ok _ _ _ _ _ Hrun).
    unfold item_tags, bind, read_meta. rewrite Hm. unfold Dict.mem in Hmem.
    by destruct (Dict.get "tags" m).
  - pose proof (TaggingAction_run_fresh tagging_backend
                  (mkTaggingAction method false kwargs) item h m Hm) as Hrun.
    simpl in Hrun. rewrite Hmem in Hrun. specialize (Hrun eq_refl).
    eexists _, _. split; [done|]. rewrite (bind_ok _ _ _ _ _ Hrun).
    by rewrite (bind_ok _ _ _ _ _ (tagged_item_tags _ _ _ _)).
Qed.

(** X8.  What a filter accepts, a filter of the same mode and tagger that
    requires no more accepts as well: the verdict does not depend on the
    order of the requirements nor on where the loop breaks. *)
Theorem filter_monotone (self1 self2 : TagFilterAction Kwargs) item h item' h' :
  filterable h item = true →
  tf_tagger self2 = tf_tagger self1 → tf_reversed self2 = tf_reversed self1 →
  (∀ e, e ∈ tf_tags self2 → e ∈ tf_tags self1) →
  TagFilterAction_iter tagging_backend self1 item h = Ok ([item'], h') →
  TagFilterAction_iter tagging_backend self2 item h = Ok ([item'], h').
Proof.
  intros Hf Htagger Hrev Hsub Hit1.
  destruct (TagFilterAction_iter_run tagging_backend self1 item h Hf)
    as (i1 & h1 & Hrun1 & Hit1').
  rewrite Hit1' in Hit1.
  destruct (all_valid (tf_reversed self1) (tf_tags self1) (tags_of h1 i1)) eqn:Hv;
    [|done].
  injection Hit1 as Hi Hh. subst i1 h1.
  rewrite (iter_of_tagged self2 item h item' h' Hf) by (by rewrite Htagger).
  rewrite Hrev.
  destruct (all_valid (tf_reversed self1) (tf_tags self2) (tags_of h' item')) eqn:Hv2;
    [done|].
  apply all_valid_false in Hv2 as (tag & min_score & Hin & Hlt).
  assert (all_valid (tf_reversed self1) (tf_tags self1) (tags_of h' item') = false)
    as Hv'; [|congruence].
  apply all_valid_false. exists tag, min_score. split; [by apply Hsub|done].
Qed.

(** X9.  A filter built from a list of names in normal mode yields nothing for
    an item whose tags, once computed, lack one of the names. *)
Theorem filter_rejects_missing_tag names method (kwargs : Kwargs) self item h tag :
  TagFilterAction_init (PyList names) method false kwargs = Ok self →
  filterable h item = true → tag ∈ names →
  ∃ item' h',
    TaggingAction_process tagging_backend (mkTaggingAction method false kwargs)
      item h = Ok (item', h')
    ∧ (Dict.get tag (tags_of h' item') = None →
       TagFilterAction_iter tagging_backend self item h = Ok ([], h')).
Proof.
  intros Hinit Hf Htag. simpl in Hinit. injection Hinit as <-.
  destruct (TagFilterAction_iter_run tagging_backend
              (mkTagFilterAction (required_of_names names)
                 (mkTaggingAction method false kwargs) false) item h Hf)
    as (item' & h' & Hrun & Hit).
  simpl in Hrun, Hit. exists item', h'. split; [done|]. intros Hnone.
  rewrite Hit.
  assert (all_valid false (required_of_names names) (tags_of h' item') = false)
    as ->; [|done].
  apply all_valid_false. exists tag, score_present.
  split; [by apply required_of_names_entries|]. by rewrite Hnone.
Qed.

(** *** DanbooruTagProcessAction *)

(** X10.  A tag that is no token of the four tag strings, nor an artist token
    prefixed with [artist:], has in the output tags what it has in the input
    tags. *)
Theorem danbooru_other_tags_kept (self : DanbooruTagProcessAction) item h k :
  wf_item h item = true →
  in_set k (meta_tokens (danbooru_of h item)) = false →
  in_set k (character_tokens (danbooru_of h item)) = false →
  in_set k (copyright_tokens (danbooru_of h item)) = false →
  in_set k (artist_tokens (danbooru_of h item)) = false →
  in_set k (map by_artist (artist_tokens (danbooru_of h item))) = false →
  ∃ item' h',
    DanbooruTagProcessAction_process self item h = Ok (item', h')
    ∧ Dict.get k (tags_of h' item') = Dict.get k (tags_of h item).
Proof.
  intros Hwf H0%in_set_false H1%in_set_false H2%in_set_false H3%in_set_false
    H4%in_set_false.
  eexists _, _. split; [by apply DanbooruTagProcessAction_run|].
  rewrite tagged_tags, danbooru_tags_meta_loop by done.
  by apply meta_loop_other.
Qed.

(** X11.  A meta token outside the whitelist that the input tags hold with the
    score zero stays in the output tags with that score (the test before the
    deletion is a truth test); the later loops aside. *)
Theorem danbooru_zero_score_meta_kept (self : DanbooruTagProcessAction)
    item h t x :
  wf_item h item = true →
  in_set t (meta_tokens (danbooru_of h item)) = true →
  in_set t (meta_whitelist self) = false →
  Dict.get t (tags_of h item) = Some x → score_truthy x = false →
  in_set t (character_tokens (danbooru_of h item)) = false →
  in_set t (copyright_tokens (danbooru_of h item)) = false →
  in_set t (artist_tokens (danbooru_of h item)) = false →
  in_set t (map by_artist (artist_tokens (danbooru_of h item))) = false →
  ∃ item' h',
    DanbooruTagProcessAction_process self item h = Ok (item', h')
    ∧ Dict.get t (tags_of h' item') = Some x.
Proof.
  intros Hwf _ Hw Hx Hfalsy H1%in_set_false H2%in_set_false H3%in_set_false
    H4%in_set_false.
  eexists _, _. split; [by apply DanbooruTagProcessAction_run|].
  rewrite tagged_tags, danbooru_tags_meta_loop by done.
  rewrite meta_loop_falsy; [done|done|]. by rewrite Hx.
Qed.

(** X12.  When the four tag strings give no token (each missing, [None], empty or
    blank), the output tags are the input tags, entry by entry. *)
Theorem danbooru_no_tokens (self : DanbooruTagProcessAction) item h :
  wf_item h item = true →
  meta_tokens (danbooru_of h item) = [] →
  character_tokens (danbooru_of h item) = [] →
  copyright_tokens (danbooru_of h item) = [] →
  artist_tokens (danbooru_of h item) = [] →
  ∃ item' h',
    DanbooruTagProcessAction_process self item h = Ok (item', h')
    ∧ tags_of h' item' = tags_of h item.
Proof.
  intros Hwf H0 H1 H2 H3.
  eexists _, _. split; [by apply DanbooruTagProcessAction_run|].
  rewrite tagged_tags. unfold danbooru_tags.
  destruct (danbooru_of h item); [done|]. by rewrite H0, H1, H2, H3.
Qed.

(** X13.  Applying the action to its own result gives, for every tag, what one
    application gives. *)
Theorem danbooru_idempotent (self : DanbooruTagProcessAction) item h :
  wf_item h item = true →
  ∃ item1 h1 item2 h2,
    DanbooruTagProcessAction_process self item h = Ok (item1, h1)
    ∧ DanbooruTagProcessAction_process self item1 h1 = Ok (item2, h2)
    ∧ ∀ k, Dict.get k (tags_of h2 item2) = Dict.get k (tags_of h1 item1).
Proof.
  intros Hwf. eexists _, _, _, _.
  split; [by apply DanbooruTagProcessAction_run|].
  split; [by apply DanbooruTagProcessAction_run, tagged_wf|].
  intros k. rewrite !tagged_tags, tagged_danbooru.
  apply danbooru_tags_twice.
Qed.

(** *** TagNSFWOrExplicitAction *)

(** X14.  Whatever the rating, every tag other than ['nsfw'] and ['explicit'] has
    in the output tags what it has in the input tags. *)
Theorem rating_other_tags_kept item h k :
  wf_item h item = true → k ≠ "nsfw" → k ≠ "explicit" →
  ∃ item' h',
    TagNSFWOrExplicitAction_process anime_rating item h = Ok (item', h')
    ∧ Dict.get k (tags_of h' item') = Dict.get k (tags_of h item).
Proof.
  intros Hwf H1 H2.
  eexists _, _. split; [by apply TagNSFWOrExplicitAction_run|].
  rewrite tagged_tags. by apply rating_tags_other.
Qed.

(** *** TagDropAction and BlacklistedTagDropAction *)

(** X15.  The output tags of [TagDropAction] are the input tags without the
    entries whose name is in [tags_to_drop], in the same order: a dropped
    name is absent and every other name has its score. *)
Theorem tag_drop_filters (self : TagDropAction) item h :
  wf_item h item = true → distinct_keys (tags_of h item) = true →
  ∃ item' h',
    TagDropAction_process self item h = Ok (item', h')
    ∧ tags_of h' item'
      = List.filter (λ '(tag, _), negb (in_set tag (tags_to_drop self)))
          (tags_of h item)
    ∧ ∀ k, Dict.get k (tags_of h' item')
           = if in_set k (tags_to_drop self) then None
             else Dict.get k (tags_of h item).
Proof.
  intros Hwf Hd. eexists _, _. split; [by apply rebuild_tags_run|].
  rewrite tagged_tags, comprehension_filter by done. split; [done|].
  intros k. rewrite (dict_get_filter (λ tag, negb (in_set tag (tags_to_drop self)))).
  by destruct (in_set k (tags_to_drop self)).
Qed.

(** X16.  The output tags of [BlacklistedTagDropAction] are the input tags without
    the entries whose name is blacklisted, in the same order. *)
Theorem blacklisted_drop_filters item h :
  wf_item h item = true → distinct_keys (tags_of h item) = true →
  ∃ item' h',
    BlacklistedTagDropAction_process is_blacklisted item h = Ok (item', h')
    ∧ tags_of h' item'
      = List.filter (λ '(tag, _), negb (is_blacklisted tag)) (tags_of h item)
    ∧ ∀ k, Dict.get k (tags_of h' item')
           = if is_blacklisted k then None else Dict.get k (tags_of h item).
Proof.
  intros Hwf Hd. eexists _, _. split; [by apply rebuild_tags_run|].
  rewrite tagged_tags, comprehension_filter by done. split; [done|].
  intros k. rewrite (dict_get_filter (λ tag, negb (is_blacklisted tag))).
  by destruct (is_blacklisted k).
Qed.

(** X17.  Dropping one list of names and then another gives the tags that
    dropping the two lists at once gives. *)
Theorem tag_drop_twice (first second : TagDropAction) item h :
  wf_item h item = true → distinct_keys (tags_of h item) = true →
  ∃ item1 h1 item2 h2 item' h',
    TagDropAction_process first item h = Ok (item1, h1)
    ∧ TagDropAction_process second item1 h1 = Ok (item2, h2)
    ∧ TagDropAction_process
        (mkTagDropAction (tags_to_drop first ++ tags_to_drop second)) item h
      = Ok (item', h')
    ∧ tags_of h2 item2 = tags_of h' item'.
Proof.
  intros Hwf Hd. eexists _, _, _, _, _, _.
  split; [by apply rebuild_tags_run|].
  split; [by apply rebuild_tags_run, tagged_wf|].
  split; [by apply rebuild_tags_run|].
  rewrite !tagged_tags. rewrite (comprehension_filter _ (tags_of h item)) by done.
  rewrite comprehension_filter by (by apply distinct_keys_filter).
  rewrite comprehension_filter by done. simpl. apply filter_drop_twice.
Qed.

(** *** TagRemoveUnderlineAction *)

(** X18.  Each name of the output tags has the score of the last input tag that
    is rewritten to it: where two input names are rewritten to one, the
    later score is the one kept. *)
Theorem remove_underline_last_wins item h k :
  wf_item h item = true →
  ∃ item' h',
    TagRemoveUnderlineAction_process remove_underline item h = Ok (item', h')
    ∧ Dict.get k (tags_of h' item')
      = last_written remove_underline (λ _, true) (tags_of h item) k.
Proof.
  intros Hwf. eexists _, _. split; [by apply rebuild_tags_run|].
  rewrite tagged_tags. apply comprehension_get.
Qed.

(** X19.  Where no other input name is rewritten to the same name, a rewritten
    name has in the output tags the score its name has in the input tags. *)
Theorem remove_underline_keeps_score item h t :
  wf_item h item = true → distinct_keys (tags_of h item) = true →
  rewritten_apart remove_underline (tags_of h item) t = true →
  ∃ item' h',
    TagRemoveUnderlineAction_process remove_underline item h = Ok (item', h')
    ∧ Dict.get (remove_underline t) (tags_of h' item') = Dict.get t (tags_of h item).
Proof.
  intros Hwf Hd Hapart. eexists _, _. split; [by apply rebuild_tags_run|].
  rewrite tagged_tags, comprehension_get. by apply last_written_apart.
Qed.

End more_action_facts.

(** ** The backends and the registry *)

Section backend_facts.
Context {Image : Type}.
Variable get_deepdanbooru_tags :
  Image → bool → score → score →
  list (string * score) * list (string * score) * list (string * score).
Variable get_wd14_tags :
  Image → string → score → score →
  list (string * score) * list (string * score) * list (string * score).

(** X20.  In the result of [_deepdanbooru_tagging] and of [_wd14_tagging] a name
    has its score among the characters when it is one, and its score among
    the features otherwise: a character overrides a feature of the same
    name. *)
Theorem backend_characters_override (image : Image) use_real_name model_name
    general_threshold character_threshold :
  distinct_keys
    (get_deepdanbooru_tags image use_real_name general_threshold
       character_threshold).2 = true →
  distinct_keys
    (get_wd14_tags image model_name general_threshold character_threshold).2
  = true →
  (∀ k,
     Dict.get k (_deepdanbooru_tagging get_deepdanbooru_tags image use_real_name
                   general_threshold character_threshold)
     = match Dict.get k (get_deepdanbooru_tags image use_real_name
                           general_threshold character_threshold).2 with
       | Some v => Some v
       | None => Dict.get k (get_deepdanbooru_tags image use_real_name
                               general_threshold character_threshold).1.2
       end)
  ∧ (∀ k,
       Dict.get k (_wd14_tagging get_wd14_tags image model_name
                     general_threshold character_threshold)
       = match Dict.get k (get_wd14_tags image model_name general_threshold
                             character_threshold).2 with
         | Some v => Some v
         | None => Dict.get k (get_wd14_tags image model_name general_threshold
                                 character_threshold).1.2
         end).
Proof.
  unfold _deepdanbooru_tagging, _wd14_tagging.
  destruct (get_deepdanbooru_tags _ _ _ _) as [[r1 f1] c1].
  destruct (get_wd14_tags _ _ _ _) as [[r2 f2] c2]. simpl.
  intros H1 H2. split; intros k; by apply dict_merge_get.
Qed.

End backend_facts.

Lemma registry_keys_are_names name :
  Dict.mem name _TAGGING_METHODS = true ↔ name ∈ TaggingMethodTyping_names.
Proof.
  rewrite dict_mem_keys. split; apply in_set_subset; reflexivity.
Qed.

Lemma init_by_name_cases {Kwargs : Type} (method : string) force
    (kwargs : Kwargs) :
  (method ∈ TaggingMethodTyping_names →
   ∃ f, TaggingAction_init_by_name method force kwargs = Ok (f, force, kwargs))
  ∧ (method ∉ TaggingMethodTyping_names →
     TaggingAction_init_by_name method force kwargs = Raise KeyError).
Proof.
  unfold TaggingAction_init_by_name.
  pose proof (registry_keys_are_names method) as Hreg. unfold Dict.mem in Hreg.
  destruct (Dict.get method _TAGGING_METHODS) as [f|].
  - split; [eauto|]. intros Hn. exfalso. apply Hn. by apply Hreg.
  - split; [|done]. intros Hn. apply Hreg in Hn. done.
Qed.

(** X21.  [TaggingAction] can be built from a method name exactly when the
    name is one of [TaggingMethodTyping]: the registry has an entry for each
    of these names and for no other, and any other name raises [KeyError];
    the default method name is one of them. *)
Theorem tagging_init_by_name {Kwargs : Type} (method : string) force
    (kwargs : Kwargs) :
  (method ∈ TaggingMethodTyping_names →
   ∃ f, TaggingAction_init_by_name method force kwargs = Ok (f, force, kwargs))
  ∧ (method ∉ TaggingMethodTyping_names →
     TaggingAction_init_by_name method force kwargs = Raise KeyError)
  ∧ DEFAULT_TAGGING_METHOD_name ∈ TaggingMethodTyping_names.
Proof.
  destruct (init_by_name_cases method force kwargs) as (Hok & Hbad).
  split; [done|]. split; [done|]. by apply in_set_true.
Qed.

(** C9, as amended.  [TagFilterAction.__init__] raises [TypeError] when
    [tags] is not a list, a tuple or a dict (a mapping that is not a dict
    included), whatever the other arguments, and before any item is
    processed.  With a list, a tuple or a dict it raises [TypeError] when the
    keyword arguments have [force], else [KeyError] when the method name is
    not in the registry, and else returns the filter: the requirements are
    the listed names at 1e-6 or the entries of the dict, and the tagger does
    not force. *)
Theorem C9_constructor_type_check {V : Type} (tags : pyobj) (method : string)
    reversed (kwargs : list (string * V)) :
  match tags with
  | PyList xs | PyTuple xs =>
      if Dict.mem "force" kwargs
      then TagFilterAction_init_by_name tags method reversed kwargs
           = Raise TypeError
      else if in_set method TaggingMethodTyping_names
      then ∃ f, TagFilterAction_init_by_name tags method reversed kwargs
                = Ok (required_of_names xs, (f, false, kwargs), reversed)
      else TagFilterAction_init_by_name tags method reversed kwargs
           = Raise KeyError
  | PyDict d =>
      if Dict.mem "force" kwargs
      then TagFilterAction_init_by_name tags method reversed kwargs
           = Raise TypeError
      else if in_set method TaggingMethodTyping_names
      then ∃ f, TagFilterAction_init_by_name tags method reversed kwargs
                = Ok (d, (f, false, kwargs), reversed)
      else TagFilterAction_init_by_name tags method reversed kwargs
           = Raise KeyError
  | _ => TagFilterAction_init_by_name tags method reversed kwargs = Raise TypeError
  end.
Proof.
  destruct (init_by_name_cases method false kwargs) as (Hok & Hbad).
  unfold TagFilterAction_init_by_name.
  destruct tags; try done;
    (destruct (Dict.mem "force" kwargs); [done|];
     destruct (in_set method TaggingMethodTyping_names) eqn:Hin;
     [apply in_set_true in Hin; destruct (Hok Hin) as [f ->]; eauto
     |apply in_set_false in Hin; by rewrite (Hbad Hin)]).
Qed.

(** X22.  Every token [str.split()] gives is non-empty and has no whitespace in
    it. *)
Theorem split_tokens s t :
  in_set t (split s) = true →
  t ≠ "" ∧ forallb (λ c, negb (is_space c)) (chars t) = true.
Proof.
  intros Ht%in_set_true. by apply (split_from_tokens s "" t).
Qed.

(** * The claims on sample items *)

Lemma C1_meta_tokens_witness :
  ∃ item' h',
    DanbooruTagProcessAction_process sample_action sample_item sample_heap
    = Ok (item', h')
    ∧ (in_set "official_art" (meta_whitelist sample_action) = true →
       Dict.get "official_art" (tags_of h' item') = Some score_zero)
    ∧ (in_set "official_art" (meta_whitelist sample_action) = false →
       option_truthy (Dict.get "official_art" (tags_of sample_heap sample_item)) = true →
       Dict.get "official_art" (tags_of h' item') = None)
    ∧ (in_set "official_art" (meta_whitelist sample_action) = false →
       Dict.get "official_art" (tags_of sample_heap sample_item) = None →
       Dict.get "official_art" (tags_of h' item') = None).
Proof.
  apply (C1_meta_tokens sample_action sample_item sample_heap "official_art");
    reflexivity.
Defined.

(** The claim C1 as stated fails where a meta token is a character token as
    well: [official_art] is a token of [tag_string_meta] and is in the
    whitelist, and the output tags give it 2.9, not 0. *)
Lemma C1_counterexample :
  wf_item meta_and_character_heap sample_item = true
  ∧ in_set "official_art"
      (meta_tokens (danbooru_of meta_and_character_heap sample_item)) = true
  ∧ in_set "official_art" (meta_whitelist sample_action) = true
  ∧ ∃ item' h',
      DanbooruTagProcessAction_process sample_action sample_item
        meta_and_character_heap = Ok (item', h')
      ∧ Dict.get "official_art" (tags_of h' item') = Some score_character
      ∧ Dict.get "official_art" (tags_of h' item') ≠ Some score_zero.
Proof.
  split; [done|]. split; [done|]. split; [done|].
  eexists _, _. split; [vm_compute; reflexivity|].
  split; [done|]. vm_compute. discriminate.
Qed.

(** The other way the code leaves C1: a meta token outside the whitelist
    that the input tags hold with the score 0 stays in the output tags. *)
Example meta_tag_with_zero_score_kept :
  in_set "random_tag" (meta_tokens (danbooru_of zero_score_heap sample_item)) = true
  ∧ Dict.get "random_tag" (tags_of zero_score_heap sample_item) = Some score_zero
  ∧ ∃ item' h',
      DanbooruTagProcessAction_process (mkDanbooruTagProcessAction [])
        sample_item zero_score_heap = Ok (item', h')
      ∧ Dict.get "random_tag" (tags_of h' item') = Some score_zero.
Proof.
  split; [done|]. split; [done|].
  eexists _, _. split; [vm_compute; reflexivity|done].
Qed.

Lemma C10_whitelisted_meta_inserted_witness :
  ∃ item' h',
    DanbooruTagProcessAction_process sample_action sample_item sample_heap
    = Ok (item', h')
    ∧ Dict.get "official_art" (tags_of h' item') = Some score_zero.
Proof.
  apply (C10_whitelisted_meta_inserted sample_action sample_item sample_heap
           "official_art"); reflexivity.
Defined.

(** The claim C10 as stated fails where the meta token is an artist token as
    well: [official_art] is in the whitelist and not in the input tags, and it
    is not in the output tags. *)
Lemma C10_counterexample :
  wf_item meta_and_artist_heap sample_item = true
  ∧ in_set "official_art"
      (meta_tokens (danbooru_of meta_and_artist_heap sample_item)) = true
  ∧ in_set "official_art" (meta_whitelist sample_action) = true
  ∧ Dict.get "official_art" (tags_of meta_and_artist_heap sample_item) = None
  ∧ ∃ item' h',
      DanbooruTagProcessAction_process sample_action sample_item
        meta_and_artist_heap = Ok (item', h')
      ∧ Dict.get "official_art" (tags_of h' item') = None.
Proof.
  split; [done|]. split; [done|]. split; [done|]. split; [done|].
  eexists _, _. split; [vm_compute; reflexivity|done].
Qed.

Lemma C6_danbooru_reshaping_witness :
  ∃ item' h',
    DanbooruTagProcessAction_process sample_action sample_item sample_heap
    = Ok (item', h')
    ∧ Dict.get "alice" (tags_of h' item') = Some score_character
    ∧ Dict.get "wonderland" (tags_of h' item') = Some score_copyright
    ∧ Dict.get "artist:bob" (tags_of h' item') = Some score_artist
    ∧ Dict.get "bob" (tags_of h' item') = None.
Proof.
  destruct (C6_danbooru_reshaping sample_action sample_item sample_heap)
    as (item' & h' & Hrun & Hchar & Hcopy & Hartist & Hplain & _);
    [reflexivity|].
  exists item', h'. split; [exact Hrun|].
  split; [apply Hchar; reflexivity|].
  split; [apply Hcopy; reflexivity|].
  split; [apply (Hartist "bob"); reflexivity|].
  apply Hplain; reflexivity.
Defined.

(** The claim C6 as stated fails where a character token is a copyright
    token as well: [alice] is a token of [tag_string_character], and the
    output tags give it 2.8, not 2.9. *)
Lemma C6_counterexample :
  wf_item character_and_copyright_heap sample_item = true
  ∧ in_set "alice"
      (character_tokens (danbooru_of character_and_copyright_heap sample_item))
    = true
  ∧ ∃ item' h',
      DanbooruTagProcessAction_process sample_action sample_item
        character_and_copyright_heap = Ok (item', h')
      ∧ Dict.get "alice" (tags_of h' item') = Some score_copyright
      ∧ Dict.get "alice" (tags_of h' item') ≠ Some score_character.
Proof.
  split; [done|]. split; [done|].
  eexists _, _. split; [vm_compute; reflexivity|].
  split; [done|]. vm_compute. discriminate.
Qed.

Lemma C7_process_frame_witness :
  ∃ item' h',
    process id sample_blacklisted underline_to_space sample_rating
      (Drop (mkTagDropAction ["solo"])) sample_item sample_heap = Ok (item', h')
    ∧ frame_kept sample_heap sample_item item' h'.
Proof.
  apply (C7_process_frame id sample_blacklisted underline_to_space sample_rating
           (Drop (mkTagDropAction ["solo"])) sample_item sample_heap).
  reflexivity.
Defined.

Lemma C8_rating_mapping_witness :
  ∃ item' h',
    TagNSFWOrExplicitAction_process sample_rating sample_item sample_heap
    = Ok (item', h')
    ∧ Dict.get "explicit" (tags_of h' item') = Some 0.9%float
    ∧ Dict.get "nsfw" (tags_of h' item') = None.
Proof.
  destruct (C8_rating_mapping sample_rating sample_item sample_heap)
    as (item' & h' & Hrun & _ & H18 & _); [reflexivity|].
  exists item', h'. split; [exact Hrun|]. apply H18. reflexivity.
Defined.

Lemma C3_tagging_memoized_witness :
  TaggingAction_process sample_backend
    (mkTaggingAction DEFAULT_TAGGING_METHOD false tt) sample_item sample_heap
  = Ok (sample_item, sample_heap)
  ∧ (item1 <- TaggingAction_process sample_backend
                (mkTaggingAction DEFAULT_TAGGING_METHOD false tt) sample_item ;;
     TaggingAction_process sample_backend
       (mkTaggingAction DEFAULT_TAGGING_METHOD false tt) item1) sample_heap
    = Ok (sample_item, sample_heap).
Proof.
  apply (C3_tagging_memoized sample_backend
           (mkTaggingAction DEFAULT_TAGGING_METHOD false tt)
           sample_item sample_heap); reflexivity.
Defined.

Lemma C2_filter_semantics_witness :
  ∃ item' h',
    TaggingAction_process sample_backend
      (mkTaggingAction DEFAULT_TAGGING_METHOD false tt) sample_item untagged_heap
    = Ok (item', h')
    ∧ TagFilterAction_iter sample_backend
        (mkTagFilterAction (required_of_names ["solo"])
           (mkTaggingAction DEFAULT_TAGGING_METHOD false tt) false)
        sample_item untagged_heap
      = Ok ([item'], h')
    ∧ TagFilterAction_iter sample_backend
        (mkTagFilterAction [("solo", 0.25%float)]
           (mkTaggingAction DEFAULT_TAGGING_METHOD false tt) true)
        sample_item untagged_heap
      = Ok ([], h').
Proof.
  destruct (C2_filter_semantics sample_backend sample_item untagged_heap
              DEFAULT_TAGGING_METHOD tt)
    as (item' & h' & Hrun & Hnames & Hreversed & _); [reflexivity|].
  exists item', h'. split; [exact Hrun|].
  assert (tags_of h' item' = [("1girl", 0.9%float); ("solo", 0.5%float)]) as Htags.
  { vm_compute in Hrun. injection Hrun as <- <-. reflexivity. }
  split.
  - destruct (Hnames ["solo"] _ (or_introl eq_refl)) as (out & Hiter & _ & Hout).
    rewrite Hiter. f_equal. f_equal. apply Hout.
    intros tag ->%list_elem_of_singleton. unfold score_in. rewrite Htags.
    reflexivity.
  - destruct (Hreversed [("solo", 0.25%float)] _ eq_refl) as (out & Hiter & _ & Hout).
    rewrite Hiter. f_equal. f_equal. apply Hout.
    exists "solo", 0.25%float. split; [left|].
    unfold score_in. rewrite Htags. reflexivity.
Defined.

(** The claim C2 as stated fails on a score that is not a number: the
    filter built from the list [["solo"]] yields the item whose tag [solo]
    has the score [nan], although that score is not at least 1e-6. *)
Lemma C2_counterexample :
  filterable nan_heap sample_item = true
  ∧ TagFilterAction_init (PyList ["solo"]) DEFAULT_TAGGING_METHOD false tt
    = Ok (mkTagFilterAction (required_of_names ["solo"])
            (mkTaggingAction DEFAULT_TAGGING_METHOD false tt) false)
  ∧ TagFilterAction_iter sample_backend
      (mkTagFilterAction (required_of_names ["solo"])
         (mkTaggingAction DEFAULT_TAGGING_METHOD false tt) false)
      sample_item nan_heap = Ok ([sample_item], nan_heap)
  ∧ PrimFloat.leb 1e-6 (score_in nan_heap sample_item "solo") = false.
Proof. repeat split; reflexivity. Qed.

Lemma C4_chain_order_witness :
  produces (Chain (Leaf [1; 2]) (Leaf [3])) [1; 2; 3]
  ∧ produces (Chain (Leaf [3]) (Leaf [1; 2])) [3; 1; 2].
Proof.
  destruct (C4_chain_order (Leaf [1; 2]) (Leaf [3]) [1; 2] [3])
    as ((H1 & _) & (H2 & _) & _); [constructor|constructor|].
  split; [exact H1|exact H2].
Defined.

Lemma C5_merge_fairness_witness :
  length (map snd (round_robin sample_zerochan sample_danbooru)) = 40
  ∧ forallb (λ x, Nat.ltb x 100) (take 20 (map snd (round_robin sample_zerochan sample_danbooru)))
    = false
  ∧ forallb (λ x, negb (Nat.ltb x 100))
      (take 20 (map snd (round_robin sample_zerochan sample_danbooru))) = false
  ∧ forallb (λ x, Nat.ltb x 100) (drop 20 (map snd (round_robin sample_zerochan sample_danbooru)))
    = false
  ∧ forallb (λ x, negb (Nat.ltb x 100))
      (drop 20 (map snd (round_robin sample_zerochan sample_danbooru))) = false.
Proof.
  apply (C5_merge_fairness (Leaf sample_zerochan) (Leaf sample_danbooru)
           (λ x, Nat.ltb x 100)).
  - intros la Hla. inversion Hla; subst. split; reflexivity.
  - intros lb Hlb. inversion Hlb; subst. split; reflexivity.
  - apply (produces_merge (Leaf sample_zerochan) (Leaf sample_danbooru)
             (round_robin sample_zerochan sample_danbooru)).
    + exact (produces_leaf sample_zerochan).
    + exact (produces_leaf sample_danbooru).
    + reflexivity.
Defined.

(** * The further properties on sample items *)

Lemma tagging_computes_witness :
  ∃ item' h',
    TaggingAction_process sample_backend
      (mkTaggingAction DEFAULT_TAGGING_METHOD true tt) sample_item sample_heap
    = Ok (item', h')
    ∧ tags_of h' item' = [("1girl", 0.9%float); ("solo", 0.5%float)]
    ∧ frame_kept sample_heap sample_item item' h'.
Proof.
  apply (tagging_computes sample_backend
           (mkTaggingAction DEFAULT_TAGGING_METHOD true tt) sample_item
           sample_heap); reflexivity.
Defined.

Lemma tagging_idempotent_witness :
  ∃ item' h',
    TaggingAction_process sample_backend
      (mkTaggingAction DEFAULT_TAGGING_METHOD false tt) sample_item untagged_heap
    = Ok (item', h')
    ∧ (item1 <- TaggingAction_process sample_backend
                  (mkTaggingAction DEFAULT_TAGGING_METHOD false tt) sample_item ;;
       TaggingAction_process sample_backend
         (mkTaggingAction DEFAULT_TAGGING_METHOD false tt) item1) untagged_heap
      = Ok (item', h').
Proof.
  apply (tagging_idempotent sample_backend
           (mkTaggingAction DEFAULT_TAGGING_METHOD false tt) sample_item
           untagged_heap [("filename", VStr "zerochan_1.png")]); reflexivity.
Defined.

Lemma process_then_tagging_witness :
  ∃ item' h',
    process id sample_blacklisted underline_to_space sample_rating
      RemoveUnderline sample_item sample_heap = Ok (item', h')
    ∧ wf_item h' item' = true
    ∧ filterable h' item' = true
    ∧ TaggingAction_process sample_backend
        (mkTaggingAction DEFAULT_TAGGING_METHOD false tt) item' h'
      = Ok (item', h').
Proof.
  apply (process_then_tagging sample_backend id sample_blacklisted
           underline_to_space sample_rating RemoveUnderline
           (mkTaggingAction DEFAULT_TAGGING_METHOD false tt) sample_item
           sample_heap); reflexivity.
Defined.

Lemma process_twice_frame_witness :
  ∃ item2 h2,
    (item1 <- process id sample_blacklisted underline_to_space sample_rating
                (DanbooruProcess sample_action) sample_item ;;
     process id sample_blacklisted underline_to_space sample_rating
       RemoveUnderline item1) sample_heap = Ok (item2, h2)
    ∧ image item2 = image sample_item
    ∧ (∀ k, k ≠ "tags" →
            Dict.get k (meta_of h2 item2) = Dict.get k (meta_of sample_heap sample_item))
    ∧ extends sample_heap h2
    ∧ meta_of h2 sample_item = meta_of sample_heap sample_item
    ∧ tags_of h2 sample_item = tags_of sample_heap sample_item.
Proof.
  apply (process_twice_frame id sample_blacklisted underline_to_space
           sample_rating (DanbooruProcess sample_action) RemoveUnderline
           sample_item sample_heap); reflexivity.
Defined.

Lemma filter_passes_tagged_item_witness :
  ∃ out,
    TagFilterAction_iter sample_backend
      (mkTagFilterAction (required_of_names ["solo"])
         (mkTaggingAction DEFAULT_TAGGING_METHOD false tt) false)
      sample_item sample_heap = Ok (out, sample_heap)
    ∧ (out = [sample_item] ∨ out = []).
Proof.
  apply (filter_passes_tagged_item sample_backend (PyList ["solo"])
           DEFAULT_TAGGING_METHOD false tt); reflexivity.
Defined.

Lemma filter_frame_witness :
  ∃ out h',
    TagFilterAction_iter sample_backend
      (mkTagFilterAction [("solo", 0.25%float)]
         (mkTaggingAction DEFAULT_TAGGING_METHOD false tt) true)
      sample_item untagged_heap = Ok (out, h')
    ∧ extends untagged_heap h'
    ∧ meta_of h' sample_item = meta_of untagged_heap sample_item
    ∧ (∀ item', item' ∈ out → image item' = image sample_item).
Proof.
  apply (filter_frame sample_backend
           (mkTagFilterAction [("solo", 0.25%float)]
              (mkTaggingAction DEFAULT_TAGGING_METHOD false tt) true)
           sample_item untagged_heap); reflexivity.
Defined.

Lemma filter_nothing_required_witness :
  ∃ item' h',
    TaggingAction_process sample_backend
      (mkTaggingAction DEFAULT_TAGGING_METHOD false tt) sample_item none_tags_heap
    = Ok (item', h')
    ∧ TagFilterAction_iter sample_backend
        (mkTagFilterAction [] (mkTaggingAction DEFAULT_TAGGING_METHOD false tt) true)
        sample_item none_tags_heap = Ok ([item'], h').
Proof.
  apply (filter_nothing_required sample_backend (PyDict [])
           DEFAULT_TAGGING_METHOD true tt _ sample_item none_tags_heap
           [("filename", VStr "zerochan_2.png"); ("tags", VNone)]);
    [right; right; reflexivity|reflexivity|reflexivity].
Defined.

Lemma filter_monotone_witness :
  TagFilterAction_iter sample_backend
    (mkTagFilterAction [("solo", 0.25%float)]
       (mkTaggingAction DEFAULT_TAGGING_METHOD false tt) false)
    sample_item sample_heap = Ok ([sample_item], sample_heap).
Proof.
  apply (filter_monotone sample_backend
           (mkTagFilterAction [("random_tag", 0.5%float); ("solo", 0.25%float)]
              (mkTaggingAction DEFAULT_TAGGING_METHOD false tt) false)
           (mkTagFilterAction [("solo", 0.25%float)]
              (mkTaggingAction DEFAULT_TAGGING_METHOD false tt) false)
           sample_item sample_heap sample_item sample_heap);
    [reflexivity|reflexivity|reflexivity| |reflexivity].
  intros e ->%list_elem_of_singleton. right. left.
Defined.

Lemma filter_rejects_missing_tag_witness :
  ∃ item' h',
    TaggingAction_process sample_backend
      (mkTaggingAction DEFAULT_TAGGING_METHOD false tt) sample_item sample_heap
    = Ok (item', h')
    ∧ (Dict.get "smile" (tags_of h' item') = None →
       TagFilterAction_iter sample_backend
         (mkTagFilterAction (required_of_names ["solo"; "smile"])
            (mkTaggingAction DEFAULT_TAGGING_METHOD false tt) false)
         sample_item sample_heap = Ok ([], h')).
Proof.
  apply (filter_rejects_missing_tag sample_backend ["solo"; "smile"]
           DEFAULT_TAGGING_METHOD tt); [reflexivity|reflexivity|].
  right. left.
Defined.

Lemma danbooru_other_tags_kept_witness :
  ∃ item' h',
    DanbooruTagProcessAction_process sample_action sample_item sample_heap
    = Ok (item', h')
    ∧ Dict.get "solo" (tags_of h' item') = Dict.get "solo" (tags_of sample_heap sample_item).
Proof.
  apply (danbooru_other_tags_kept sample_action sample_item sample_heap "solo");
    reflexivity.
Defined.

Lemma danbooru_zero_score_meta_kept_witness :
  ∃ item' h',
    DanbooruTagProcessAction_process (mkDanbooruTagProcessAction [])
      sample_item zero_score_heap = Ok (item', h')
    ∧ Dict.get "random_tag" (tags_of h' item') = Some 0%float.
Proof.
  apply (danbooru_zero_score_meta_kept (mkDanbooruTagProcessAction [])
           sample_item zero_score_heap "random_tag" 0%float); reflexivity.
Defined.

Lemma danbooru_no_tokens_witness :
  ∃ item' h',
    DanbooruTagProcessAction_process sample_action sample_item underlined_heap
    = Ok (item', h')
    ∧ tags_of h' item' = tags_of underlined_heap sample_item.
Proof.
  apply (danbooru_no_tokens sample_action sample_item underlined_heap);
    reflexivity.
Defined.

Lemma danbooru_idempotent_witness :
  ∃ item1 h1 item2 h2,
    DanbooruTagProcessAction_process sample_action sample_item sample_heap
    = Ok (item1, h1)
    ∧ DanbooruTagProcessAction_process sample_action item1 h1 = Ok (item2, h2)
    ∧ ∀ k, Dict.get k (tags_of h2 item2) = Dict.get k (tags_of h1 item1).
Proof.
  apply (danbooru_idempotent sample_action sample_item sample_heap).
  reflexivity.
Defined.

Lemma rating_other_tags_kept_witness :
  ∃ item' h',
    TagNSFWOrExplicitAction_process sample_rating sample_item sample_heap
    = Ok (item', h')
    ∧ Dict.get "solo" (tags_of h' item') = Dict.get "solo" (tags_of sample_heap sample_item).
Proof.
  apply (rating_other_tags_kept sample_rating sample_item sample_heap "solo");
    [reflexivity|discriminate|discriminate].
Defined.

Lemma tag_drop_filters_witness :
  ∃ item' h',
    TagDropAction_process (mkTagDropAction ["solo"]) sample_item sample_heap
    = Ok (item', h')
    ∧ tags_of h' item'
      = List.filter (λ '(tag, _), negb (in_set tag ["solo"]))
          (tags_of sample_heap sample_item)
    ∧ ∀ k, Dict.get k (tags_of h' item')
           = if in_set k ["solo"] then None
             else Dict.get k (tags_of sample_heap sample_item).
Proof.
  apply (tag_drop_filters (mkTagDropAction ["solo"]) sample_item sample_heap);
    reflexivity.
Defined.

Lemma blacklisted_drop_filters_witness :
  ∃ item' h',
    BlacklistedTagDropAction_process sample_blacklisted sample_item sample_heap
    = Ok (item', h')
    ∧ tags_of h' item'
      = List.filter (λ '(tag, _), negb (sample_blacklisted tag))
          (tags_of sample_heap sample_item)
    ∧ ∀ k, Dict.get k (tags_of h' item')
           = if sample_blacklisted k then None
             else Dict.get k (tags_of sample_heap sample_item).
Proof.
  apply (blacklisted_drop_filters sample_blacklisted sample_item sample_heap);
    reflexivity.
Defined.

Lemma tag_drop_twice_witness :
  ∃ item1 h1 item2 h2 item' h',
    TagDropAction_process (mkTagDropAction ["solo"]) sample_item sample_heap
    = Ok (item1, h1)
    ∧ TagDropAction_process (mkTagDropAction ["random_tag"]) item1 h1
      = Ok (item2, h2)
    ∧ TagDropAction_process (mkTagDropAction (["solo"] ++ ["random_tag"]))
        sample_item sample_heap = Ok (item', h')
    ∧ tags_of h2 item2 = tags_of h' item'.
Proof.
  apply (tag_drop_twice (mkTagDropAction ["solo"])
           (mkTagDropAction ["random_tag"]) sample_item sample_heap);
    reflexivity.
Defined.

Lemma remove_underline_last_wins_witness :
  ∃ item' h',
    TagRemoveUnderlineAction_process underline_to_space sample_item underlined_heap
    = Ok (item', h')
    ∧ Dict.get "long hair" (tags_of h' item')
      = last_written underline_to_space (λ _, true)
          (tags_of underlined_heap sample_item) "long hair".
Proof.
  apply (remove_underline_last_wins underline_to_space sample_item
           underlined_heap "long hair"); reflexivity.
Defined.

Lemma remove_underline_keeps_score_witness :
  ∃ item' h',
    TagRemoveUnderlineAction_process underline_to_space sample_item sample_heap
    = Ok (item', h')
    ∧ Dict.get (underline_to_space "random_tag") (tags_of h' item')
      = Dict.get "random_tag" (tags_of sample_heap sample_item).
Proof.
  apply (remove_underline_keeps_score underline_to_space sample_item
           sample_heap "random_tag"); reflexivity.
Defined.

Lemma backend_characters_override_witness :
  Dict.get "alice"
    (_deepdanbooru_tagging sample_deepdanbooru_tags 0 false 0.5%float 0.5%float)
  = Some 0.95%float
  ∧ Dict.get "solo"
      (_wd14_tagging sample_wd14_tags 0 "ViT" 0.35%float 0.85%float)
    = Some 0.9%float.
Proof.
  destruct (backend_characters_override sample_deepdanbooru_tags sample_wd14_tags
              0 false "ViT" 0.5%float 0.5%float) as [Hdd _];
    [reflexivity|reflexivity|].
  destruct (backend_characters_override sample_deepdanbooru_tags sample_wd14_tags
              0 false "ViT" 0.35%float 0.85%float) as [_ Hwd];
    [reflexivity|reflexivity|].
  split; [rewrite Hdd|rewrite Hwd]; reflexivity.
Defined.

Lemma tagging_init_by_name_witness :
  (∃ f, TaggingAction_init_by_name "wd14_moat" false tt = Ok (f, false, tt))
  ∧ TaggingAction_init_by_name "wd14" false tt = Raise KeyError.
Proof.
  destruct (tagging_init_by_name "wd14_moat" false tt) as (Hok & _ & _).
  destruct (tagging_init_by_name "wd14" false tt) as (_ & Hbad & _).
  split.
  - apply Hok. by apply in_set_true.
  - apply Hbad. by apply in_set_false.
Defined.

Lemma split_tokens_witness :
  "official_art" ≠ ""
  ∧ forallb (λ c, negb (is_space c)) (chars "official_art") = true.
Proof.
  apply (split_tokens "official_art random_tag" "official_art"). reflexivity.
Defined.

Lemma C9_constructor_type_check_witness :
  (∃ f, TagFilterAction_init_by_name (PyList ["solo"]) "wd14_vit" false
          ([] : list (string * string))
        = Ok (required_of_names ["solo"], (f, false, []), false))
  ∧ TagFilterAction_init_by_name (PyList ["solo"]) "wd14" false
      ([] : list (string * string)) = Raise KeyError
  ∧ TagFilterAction_init_by_name (PyList ["solo"]) "wd14_vit" false
      [("force", "True")] = Raise TypeError
  ∧ TagFilterAction_init_by_name (PyStr "solo") "wd14_vit" false
      ([] : list (string * string)) = Raise TypeError.
Proof.
  split; [|split; [|split]].
  - exact (C9_constructor_type_check (PyList ["solo"]) "wd14_vit" false []).
  - exact (C9_constructor_type_check (PyList ["solo"]) "wd14" false []).
  - exact (C9_constructor_type_check (PyList ["solo"]) "wd14_vit" false
             [("force", "True")]).
  - exact (C9_constructor_type_check (PyStr "solo") "wd14_vit" false []).
Defined.

(** The claim C9 as stated fails on a mapping that is not a dict: the
    constructor raises [TypeError] where the claim has it succeed. *)
Lemma C9_counterexample :
  TagFilterAction_init_by_name (PyMapping [("solo", 0.5%float)]) "wd14_vit" false
    ([] : list (string * string)) = Raise TypeError.
Proof. reflexivity. Qed.
